(** * megalodon: model backends and raw-signal extraction

    A shallow embedding of [megalodon/backends.py] (class [ModelInfo]) and
    [megalodon/megalodon_helper.py] ([nstate_to_nbase], [med_mad],
    [extract_read_data]), with the properties of the design document
    stated and settled against it.

    Conventions.
    - A Python object is its attribute dictionary: a finite map from
      attribute names to values.  Reading an attribute that was never
      assigned raises [AttributeError].
    - Code that can raise returns a [result]; code that assigns attributes
      threads the attribute dictionary (monad [M]).
    - numpy [float32] and [float64] values are IEEE-754 binary32 and
      binary64 numbers (the executable specification of the Rocq core
      library), so that rounding, infinities and NaN are those of the
      program.
    - The interpreter is Python 3: [/] on integers is true division and
      [str] has no [decode] method. *)

From Stdlib Require Import ZArith List String Ascii Bool Lia Sorted.
From Corelib Require Import SpecFloat.
From stdpp Require Import gmap strings list.

#[local] Set Warnings "-register-all".
#[local] Open Scope string_scope.
#[local] Open Scope list_scope.
#[local] Open Scope Z_scope.

(* ================================================================== *)
(** ** Python: exceptions, results, values *)
(* ================================================================== *)

Module Py.

(** The exception classes the two modules can meet, with the built-in
    class hierarchy ([parent]); [MegaError] derives from [Exception]. *)
Inductive exn_class :=
| Exception
| ArithmeticError | ZeroDivisionError | OverflowError
| AssertionError
| AttributeError
| ImportError
| LookupError | IndexError | KeyError
| NameError | UnboundLocalError
| OSError
| RuntimeError | NotImplementedError | RecursionError
| TypeError
| ValueError | UnicodeDecodeError
| MegaError.

Definition parent (c : exn_class) : option exn_class :=
  match c with
  | Exception => None
  | ZeroDivisionError | OverflowError => Some ArithmeticError
  | IndexError | KeyError => Some LookupError
  | UnboundLocalError => Some NameError
  | NotImplementedError | RecursionError => Some RuntimeError
  | UnicodeDecodeError => Some ValueError
  | _ => Some Exception
  end.

#[global] Instance exn_class_eq_dec : EqDecision exn_class.
Proof. solve_decision. Defined.

(** [issubclass c d]: [d] is [c] or one of its ancestors (the hierarchy
    above has depth three). *)
Fixpoint issubclass_fuel (fuel : nat) (c d : exn_class) : bool :=
  bool_decide (c = d) ||
  match fuel, parent c with
  | S k, Some p => issubclass_fuel k p d
  | _, _ => false
  end.

Definition issubclass : exn_class -> exn_class -> bool := issubclass_fuel 3.

Record exn := Exn { exn_cls : exn_class; exn_msg : string }.

#[global] Instance exn_eq_dec : EqDecision exn.
Proof. solve_decision. Defined.

Inductive result (A : Type) :=
| Ok (a : A)
| Raise (e : exn).
Arguments Ok {A} a.
Arguments Raise {A} e.

Definition rbind {A B} (r : result A) (k : A -> result B) : result B :=
  match r with
  | Ok a => k a
  | Raise e => Raise e
  end.

Definition is_Ok {A} (r : result A) : bool :=
  match r with Ok _ => true | Raise _ => false end.

(** Values that are stored in attributes. *)
Inductive pyval :=
| PNone
| PBool (b : bool)
| PInt (z : Z)
| PStr (s : string)
| PBytes (b : list Byte.byte)
| PTuple (l : list pyval)
| PList (l : list pyval)
| PIntArr (a : list Z)                  (* 1-d numpy integer array *)
| PDict (d : gmap string pyval)         (* dict / defaultdict(list) *)
| PTorchDevice (cuda : option Z)        (* torch.device('cpu') is None *)
| PHandle (h : string).                 (* a loaded module or model *)

(** Attribute dictionaries. *)
Abbreviation obj := (gmap string pyval).

(** Code that updates a state [S] and may raise; [M] is code that runs on
    the attributes of [self]. *)
Definition St (S A : Type) : Type := S -> S * result A.
Abbreviation M := (St obj).

Definition ret {S A} (a : A) : St S A := fun s => (s, Ok a).
Definition raise {S A} (c : exn_class) (msg : string) : St S A :=
  fun s => (s, Raise (Exn c msg)).
Definition bind {S A B} (m : St S A) (k : A -> St S B) : St S B :=
  fun s =>
    match m s with
    | (s', Ok a) => k a s'
    | (s', Raise e) => (s', Raise e)
    end.
Definition lift {S A} (r : result A) : St S A := fun s => (s, r).

(** [try: m  except ...: h e]; the handler declines ([None]) exceptions
    that no [except] clause matches. *)
Definition catch {S A} (m : St S A) (h : exn -> option (St S A)) : St S A :=
  fun s =>
    match m s with
    | (s', Raise e) =>
        match h e with
        | Some k => k s'
        | None => (s', Raise e)
        end
    | r => r
    end.

#[global] Instance St_ret {S} : MRet (St S) := @ret S.
#[global] Instance St_bind {S} : MBind (St S) := fun A B k m => bind m k.
#[global] Instance result_ret : MRet result := @Ok.
#[global] Instance result_bind : MBind result := fun A B k r => rbind r k.
#[global] Instance result_fmap : FMap result :=
  fun A B f r => rbind r (fun a => Ok (f a)).

(** [self.name = v] and [self.name]. *)
Definition setattr (name : string) (v : pyval) : M unit :=
  fun self => (<[name := v]> self, Ok tt).
Definition getattr (name : string) : M pyval :=
  fun self =>
    match self !! name with
    | Some v => (self, Ok v)
    | None => (self, Raise (Exn AttributeError name))
    end.

(** Sequence indexing [s[i]] and slicing [s[lo:hi]] with Python's
    treatment of negative and out-of-range positions. *)
Definition norm_slice_index (len i : Z) : Z :=
  if i <? 0 then Z.max (len + i) 0 else Z.min i len.

Definition slice {A} (l : list A) (lo hi : Z) : list A :=
  let n := Z.of_nat (length l) in
  let lo' := norm_slice_index n lo in
  let hi' := norm_slice_index n hi in
  take (Z.to_nat (hi' - lo')) (drop (Z.to_nat lo') l).

Definition slice_from {A} (l : list A) (lo : Z) : list A :=
  drop (Z.to_nat (norm_slice_index (Z.of_nat (length l)) lo)) l.

Definition slice_to {A} (l : list A) (hi : Z) : list A :=
  take (Z.to_nat (norm_slice_index (Z.of_nat (length l)) hi)) l.

Definition getitem {A} (l : list A) (i : Z) : result A :=
  let n := Z.of_nat (length l) in
  let i' := if i <? 0 then n + i else i in
  if (i' <? 0) || (n <=? i') then Raise (Exn IndexError "index out of range")
  else match l !! Z.to_nat i' with
       | Some x => Ok x
       | None => Raise (Exn IndexError "index out of range")
       end.

Fixpoint mapM {A B} (f : A -> result B) (l : list A) : result (list B) :=
  match l with
  | [] => Ok []
  | x :: l' => y ← f x; ys ← mapM f l'; Ok (y :: ys)
  end.

(** A [str] is the sequence of its characters, here with code points
    below 256; [ord] and [chr] on one character. *)
Definition ord (c : ascii) : N := N_of_ascii c.
Definition chr_of (n : N) : ascii := ascii_of_N n.

(** [dict(pairs)]: the pairs are inserted in order, a later key
    overwrites an earlier one. *)
Definition dict_of_pairs {K V} `{Countable K} (pairs : list (K * V)) : gmap K V :=
  foldl (fun d kv => <[fst kv := snd kv]> d) ∅ pairs.

(** [s.translate(table)] for a table from code points to code points: a
    character without an entry ([LookupError]) is kept. *)
Definition translate (table : gmap N N) (s : string) : string :=
  string_of_list_ascii
    (map (fun c => match table !! ord c with
                   | Some n => chr_of n
                   | None => c
                   end)
         (list_ascii_of_string s)).

(** [s[::-1]] *)
Definition reversed (s : string) : string :=
  string_of_list_ascii (rev (list_ascii_of_string s)).

End Py.

Export Py.


(* ================================================================== *)
(** ** numpy: IEEE-754 scalars, medians, strided 2-d arrays *)
(* ================================================================== *)

Module Numpy.

(** *** binary32 ([np.float32]) *)

Abbreviation float32 := spec_float.

Definition f32_add : float32 -> float32 -> float32 := SFadd 24 128.
Definition f32_sub : float32 -> float32 -> float32 := SFsub 24 128.
Definition f32_mul : float32 -> float32 -> float32 := SFmul 24 128.
Definition f32_div : float32 -> float32 -> float32 := SFdiv 24 128.
Definition f32_abs : float32 -> float32 := SFabs.
Definition f32_leb : float32 -> float32 -> bool := SFleb.
Definition f32_eqb : float32 -> float32 -> bool := SFeqb.

(** Conversion of an integer, rounding to nearest even. *)
Definition f32_of_Z (z : Z) : float32 := binary_normalize 24 128 z 0 false.

Definition f32_zero : float32 := S754_zero false.
Definition f32_nan : float32 := S754_nan.

Definition is_nan (x : spec_float) : bool :=
  match x with S754_nan => true | _ => false end.


(** *** binary64 (Python [float], [np.float64]) *)

Abbreviation float64 := spec_float.

Definition f64_add : float64 -> float64 -> float64 := SFadd 53 1024.
Definition f64_sub : float64 -> float64 -> float64 := SFsub 53 1024.
Definition f64_mul : float64 -> float64 -> float64 := SFmul 53 1024.
Definition f64_div : float64 -> float64 -> float64 := SFdiv 53 1024.
Definition f64_sqrt : float64 -> float64 := SFsqrt 53 1024.

(** The float [m * 2^e]. *)
Definition f64_lit (m e : Z) : float64 := binary_normalize 53 1024 m e false.

(** [float(n)] for a Python [int]: rounded to nearest even, and
    [OverflowError] beyond the largest finite float. *)
Definition float_of_int (n : Z) : result float64 :=
  match f64_lit n 0 with
  | S754_infinity _ => Raise (Exn OverflowError "int too large to convert to float")
  | x => Ok x
  end.

(** [int(x)]: truncation towards zero. *)
Definition int_of_float (x : float64) : result Z :=
  match x with
  | S754_nan => Raise (Exn ValueError "cannot convert float NaN to integer")
  | S754_infinity _ =>
      Raise (Exn OverflowError "cannot convert float infinity to integer")
  | S754_zero _ => Ok 0
  | S754_finite s m e =>
      Ok (cond_Zopp s (if 0 <=? e then Z.pos m * 2 ^ e else Z.pos m / 2 ^ (- e)))
  end.

(** Narrowing of a float64 to float32 (as when a Python float scalar
    meets a float32 array). *)
Definition f32_of_f64 (x : float64) : float32 :=
  match x with
  | S754_finite s m e => binary_round 24 128 s m e
  | _ => x
  end.

(** *** [np.median] of a 1-d float32 array (axis=None)

    The middle of the ordered data: the middle element for an odd size,
    the float32 mean of the two middle elements for an even size; NaN when
    the data holds a NaN or is empty.  The data is ordered here by a stable
    insertion sort; numpy selects the same positions by partitioning, which
    can differ only in which of several elements comparing equal (signed
    zeros) lands on a position. *)
Fixpoint insert_sorted (x : float32) (l : list float32) : list float32 :=
  match l with
  | [] => [x]
  | y :: l' => if f32_leb x y then x :: l else y :: insert_sorted x l'
  end.

Definition sort (l : list float32) : list float32 := foldr insert_sorted [] l.

Definition median (a : list float32) : float32 :=
  let n := length a in
  if (n =? 0)%nat then f32_nan
  else if existsb is_nan a then f32_nan
  else
    let part := sort a in
    if Nat.odd n then nth (n / 2) part f32_nan
    else f32_div (f32_add (nth (n / 2 - 1) part f32_nan) (nth (n / 2) part f32_nan))
                 (f32_of_Z 2).

(** *** Strided 2-d float32 arrays

    An array is a window on a buffer: buffer identifier, offset of element
    (0,0), shape and strides (counted in elements).  Buffers live in a heap;
    a basic slice is a view on the same buffer, a copy allocates a new
    buffer at the end of the heap. *)
Record ndarray := NdArray {
  nd_buf : nat;
  nd_off : nat;
  nd_rows : nat;
  nd_cols : nat;
  nd_rstride : nat;
  nd_cstride : nat
}.

Abbreviation heap := (list (list float32)).

(** Position of element (i, j) in the buffer. *)
Definition nd_index (a : ndarray) (i j : nat) : nat :=
  (nd_off a + i * nd_rstride a + j * nd_cstride a)%nat.

Definition nd_get (h : heap) (a : ndarray) (i j : nat) : float32 :=
  match h !! nd_buf a with
  | Some b => default f32_nan (b !! nd_index a i j)
  | None => f32_nan
  end.

Definition nd_row (h : heap) (a : ndarray) (i : nat) : list float32 :=
  map (nd_get h a i) (seq 0 (nd_cols a)).

Definition to_matrix (h : heap) (a : ndarray) : list (list float32) :=
  map (nd_row h a) (seq 0 (nd_rows a)).

(** [a[:, lo:hi]], a view. *)
Definition slice_cols (a : ndarray) (lo hi : Z) : ndarray :=
  let w := Z.of_nat (nd_cols a) in
  let lo' := norm_slice_index w lo in
  let hi' := norm_slice_index w hi in
  {| nd_buf := nd_buf a;
     nd_off := nd_off a + Z.to_nat lo' * nd_cstride a;
     nd_rows := nd_rows a;
     nd_cols := Z.to_nat (hi' - lo');
     nd_rstride := nd_rstride a;
     nd_cstride := nd_cstride a |}.

(** [a[:, :n]] and [a[:, n:]]. *)
Definition cols_to (a : ndarray) (n : Z) : ndarray := slice_cols a 0 n.
Definition cols_from (a : ndarray) (n : Z) : ndarray :=
  slice_cols a n (Z.of_nat (nd_cols a)).

(** The [C_CONTIGUOUS] flag: an array without elements is contiguous, and
    the stride of an axis of length one is not looked at. *)
Definition is_c_contiguous (a : ndarray) : bool :=
  if ((nd_rows a =? 0) || (nd_cols a =? 0))%nat then true
  else ((nd_cols a =? 1) || (nd_cstride a =? 1))%nat
       && ((nd_rows a =? 1) || (nd_rstride a =? nd_cols a))%nat.

(** [np.ascontiguousarray(a)] is [np.array(a, copy=False, order='C',
    ndmin=1)]: the array itself when it is already C-contiguous, and a
    copy in a new buffer otherwise. *)
Definition ascontiguousarray (a : ndarray) (h : heap) : heap * ndarray :=
  if is_c_contiguous a then (h, a)
  else (h ++ [concat (to_matrix h a)],
        {| nd_buf := length h; nd_off := 0;
           nd_rows := nd_rows a; nd_cols := nd_cols a;
           nd_rstride := nd_cols a; nd_cstride := 1 |}).

(** All elements of the window lie inside its buffer. *)
Definition nd_valid (h : heap) (a : ndarray) : Prop :=
  exists b, h !! nd_buf a = Some b /\
    forall i j, (i < nd_rows a)%nat -> (j < nd_cols a)%nat ->
      (nd_index a i j < length b)%nat.

End Numpy.

Export Numpy.

(* ================================================================== *)
(** ** megalodon_helper.py *)
(* ================================================================== *)

Module megalodon_helper.

Definition ALPHABET : string := "ACGT".

(** [int(np.sqrt(0.25 + (0.5 * nstate)) - 0.5)] *)
Definition nstate_to_nbase (nstate : Z) : result Z :=
  x ← float_of_int nstate;
  int_of_float
    (f64_sub (f64_sqrt (f64_add (f64_lit 1 (-2)) (f64_mul (f64_lit 1 (-1)) x)))
             (f64_lit 1 (-1))).

(** [COMP_BASES = dict(zip(map(ord, 'ACGT'), map(ord, 'TGCA')))] *)
Definition COMP_BASES : gmap N N :=
  dict_of_pairs (zip (map ord (list_ascii_of_string "ACGT"))
                     (map ord (list_ascii_of_string "TGCA"))).

(** [seq.translate(COMP_BASES)[::-1]] *)
Definition revcomp (seq : string) : string := reversed (translate COMP_BASES seq).

(** *** Signal extraction *)

(** The literal [1.4826]: the float64 nearest to 14826/10000. *)
Definition default_factor : float64 := f64_div (f64_lit 14826 0) (f64_lit 10000 0).

(** [med_mad(data, factor)] for 1-d data with [axis=None], the only way
    it is called: [keepdims=True] medians have shape (1,), the scalar
    factor is narrowed to the float32 of the array it multiplies, and
    [flatten()[0]] takes the two scalars out. *)
Definition med_mad (data : list float32) (factor : option float64)
  : float32 * float32 :=
  let factor := match factor with None => default_factor | Some f => f end in
  let dmed := median data in
  let dmad :=
    f32_mul (f32_of_f64 factor)
            (median (map (fun x => f32_abs (f32_sub x dmed)) data)) in
  (dmed, dmad).

(** The part of a fast5 container the routine looks at. *)
Inductive dataset :=
| IntData (samples : list Z)
| Float32Data (samples : list float32)
| NotNumeric.

Inductive attr :=
| Readable (v : pyval)
| Unreadable.

Record raw_slot := RawSlot {
  Signal : option dataset;            (* None: no 'Signal' member *)
  attrs : gmap string attr
}.

Record fast5 := Fast5 {
  Raw_Reads : option (list raw_slot)  (* None: no '/Raw/Reads' group *)
}.

(** The files that can be opened. *)
Abbreviation filesystem := (string -> option fast5).

Inductive io_event :=
| FileOpen (fn : string)
| FileClose (fn : string).

(** [next(iter(fast5_data['/Raw/Reads'].values()))] *)
Definition first_raw_slot (f : fast5) : result raw_slot :=
  match Raw_Reads f with
  | None => Raise (Exn KeyError "/Raw/Reads")
  | Some [] => Raise (Exn Exception "StopIteration")
  | Some (s :: _) => Ok s
  end.

(** [raw_slot['Signal'][:].astype(np.float32)] *)
Definition read_signal (s : raw_slot) : result (list float32) :=
  match Signal s with
  | None => Raise (Exn KeyError "Signal")
  | Some (IntData l) => Ok (map f32_of_Z l)
  | Some (Float32Data l) => Ok l
  | Some NotNumeric => Raise (Exn ValueError "could not convert to float")
  end.

(** [raw_slot.attrs.get(name)] *)
Definition attrs_get (s : raw_slot) (name : string) : result pyval :=
  match attrs s !! name with
  | None => Ok PNone
  | Some (Readable v) => Ok v
  | Some Unreadable => Raise (Exn OSError "unable to read attribute")
  end.

(** Well-formedness of UTF-8, on byte values. *)
Definition utf8_cont (b : N) : bool := ((128 <=? b) && (b <? 192))%N.

Definition utf8_second3 (b0 b1 : N) : bool :=
  (if b0 =? 224 then (160 <=? b1) && (b1 <? 192)
   else if b0 =? 237 then (128 <=? b1) && (b1 <? 160)
   else utf8_cont b1)%N.

Definition utf8_second4 (b0 b1 : N) : bool :=
  (if b0 =? 240 then (144 <=? b1) && (b1 <? 192)
   else if b0 =? 244 then (128 <=? b1) && (b1 <? 144)
   else utf8_cont b1)%N.

Fixpoint utf8_valid (l : list N) : bool :=
  match l with
  | [] => true
  | b0 :: l1 =>
      if (b0 <? 128)%N then utf8_valid l1
      else if ((194 <=? b0) && (b0 <? 224))%N then
        match l1 with
        | b1 :: l2 => utf8_cont b1 && utf8_valid l2
        | _ => false
        end
      else if ((224 <=? b0) && (b0 <? 240))%N then
        match l1 with
        | b1 :: b2 :: l3 => utf8_second3 b0 b1 && utf8_cont b2 && utf8_valid l3
        | _ => false
        end
      else if ((240 <=? b0) && (b0 <? 245))%N then
        match l1 with
        | b1 :: b2 :: b3 :: l4 =>
            utf8_second4 b0 b1 && utf8_cont b2 && utf8_cont b3 && utf8_valid l4
        | _ => false
        end
      else false
  end.

(** [v.decode()]: only [bytes] has the method; a [str] is kept as its
    UTF-8 encoding. *)
Definition decode (v : pyval) : result pyval :=
  match v with
  | PBytes b =>
      if utf8_valid (map Byte.to_N b) then Ok (PStr (string_of_list_byte b))
      else Raise (Exn UnicodeDecodeError "invalid utf-8")
  | _ => Raise (Exn AttributeError "decode")
  end.

(** The block
<<
    read_id = None
    try:
        read_id = raw_slot.attrs.get('read_id')
        read_id = read_id.decode()
    except:
        pass
>>
    as the value of [read_id] after it. *)
Definition read_id_of (s : raw_slot) : pyval :=
  let read_id := PNone in
  match attrs_get s "read_id" with
  | Raise _ => read_id
  | Ok read_id =>
      match decode read_id with
      | Raise _ => read_id
      | Ok read_id => read_id
      end
  end.

Definition extract_read_data (fs : filesystem) (fast5_fn : string) (scale : bool)
  : list io_event * result (list float32 * pyval) :=
  match fs fast5_fn with
  | None => ([], Raise (Exn MegaError "Error opening read file"))
  | Some fast5_data =>
      match first_raw_slot fast5_data with
      | Raise _ =>
          ([FileOpen fast5_fn; FileClose fast5_fn],
           Raise (Exn MegaError "Raw signal not found in /Raw/Reads slot"))
      | Ok raw_slot =>
          match read_signal raw_slot with
          | Raise _ =>
              ([FileOpen fast5_fn; FileClose fast5_fn],
               Raise (Exn MegaError "Raw signal not found in Signal dataset"))
          | Ok raw_sig =>
              let read_id := read_id_of raw_slot in
              let raw_sig :=
                if scale then
                  let '(med, mad) := med_mad raw_sig None in
                  map (fun x => f32_div (f32_sub x med) mad) raw_sig
                else raw_sig in
              ([FileOpen fast5_fn; FileClose fast5_fn], Ok (raw_sig, read_id))
          end
      end
  end.

End megalodon_helper.

Module mh := megalodon_helper.


(* ================================================================== *)
(** ** backends.py *)
(* ================================================================== *)

Module backends.

Definition TAI_NAME : string := "taiyaki".
Definition FLP_NAME : string := "flappie".
Definition CAN_ALPHABET : string := "ACGT".

(** *** numpy helpers on integer arrays *)

Fixpoint cumsum_from (acc : Z) (l : list Z) : list Z :=
  match l with
  | [] => []
  | x :: l' => (acc + x) :: cumsum_from (acc + x) l'
  end.

Definition cumsum : list Z -> list Z := cumsum_from 0.

Definition np_sum (l : list Z) : Z := foldr Z.add 0 l.

(** [a[lo:] -= v], in place. *)
Definition isub_from (a : list Z) (lo v : Z) : list Z :=
  let s := Z.to_nat (norm_slice_index (Z.of_nat (length a)) lo) in
  take s a ++ map (fun x => x - v) (drop s a).

(** [np.repeat(xs, counts)] with one count per element. *)
Definition np_repeat {A} (xs : list A) (counts : list Z) : result (list A) :=
  if negb (length xs =? length counts)%nat then
    Raise (Exn ValueError "operands could not be broadcast together")
  else if negb (forallb (fun c => 0 <=? c) counts) then
    Raise (Exn ValueError "repeats may not contain negative values")
  else Ok (concat (zip_with (fun x c => replicate (Z.to_nat c) x) xs counts)).

(** [np.ceil(p / d).astype(int)] for [d > 0].  The quotient of the true
    division is taken exactly: process counts are far below 2^53, where
    rounding of the float quotient cannot reach the next integer. *)
Definition ceil_div (p d : Z) : Z := - ((- p) / d).

(** *** Device allocation ([__init__], trained-model branch)
<<
    base_proc_per_device = np.ceil(num_proc / len(devices)).astype(int)
    procs_per_device = np.repeat(base_proc_per_device, len(devices))
    if base_proc_per_device * len(devices) > num_proc:
        procs_per_device[
            -(base_proc_per_device * len(devices) - num_proc):] -= 1
    assert sum(procs_per_device) == num_proc
>> *)
Definition procs_per_device (num_proc : Z) (ndev : nat) : result (list Z) :=
  if (ndev =? 0)%nat then Raise (Exn ZeroDivisionError "division by zero")
  else
    let len_devices := Z.of_nat ndev in
    let base_proc_per_device := ceil_div num_proc len_devices in
    let procs := replicate ndev base_proc_per_device in
    let procs :=
      if base_proc_per_device * len_devices >? num_proc
      then isub_from procs (- (base_proc_per_device * len_devices - num_proc)) 1
      else procs in
    if np_sum procs =? num_proc then Ok procs
    else Raise (Exn AssertionError "").

(** [[int(dv) for dv in np.repeat(devices, procs_per_device)]] *)
Definition process_devices (devices : list Z) (num_proc : Z) : result (list Z) :=
  procs ← procs_per_device num_proc (length devices);
  np_repeat devices procs.

(** *** The wrapped runtimes *)

(** What [__init__] inspects of the last sublayer of a taiyaki model. *)
Record ff_layer := FFLayer {
  ff_is_GlobalNormFlipFlopCatMod : bool;
  ff_size : Z;
  ff_output_alphabet : string;
  ff_can_nmods : list Z;
  ff_mod_long_names_conv : list (string * string)
}.

Inductive rt_event :=
| EvLoadModel (fn : string)
| EvCudaSetDevice (d : Z)
| EvModelToCuda
| EvModelEval
| EvEmptyCache.

Record world := World {
  w_heap : heap;
  w_log : list rt_event
}.

(** The result of [run_model]: one matrix or a (canonical, mods) pair. *)
Inductive weights :=
| Whole (a : ndarray)
| Split (can mods : ndarray).

Record runtime := Runtime {
  (* [import flappy] succeeds *)
  flappy_importable : bool;
  (* [flappy.get_cat_mods()] *)
  flappy_get_cat_mods : result (list Z * string);
  (* [flappy.run_network(flappy.RawTable(raw_sig), name)] *)
  flappy_run_network : list float32 -> string -> world -> world * result weights;
  (* the taiyaki and torch imports succeed *)
  taiyaki_importable : bool;
  (* [from taiyaki.layers import GlobalNormFlipFlopCatMod] succeeds *)
  catmod_importable : bool;
  (* [load_taiyaki_model(fn).sublayers] *)
  load_taiyaki_model : string -> result (list ff_layer);
  (* [tai_run_model(raw_sig, model, chunk_size, chunk_overlap,
     max_concur_chunks)] *)
  tai_run_model :
    list float32 -> pyval -> pyval -> pyval -> pyval -> world -> world * result ndarray
}.

(** *** Attribute access with the type the code expects *)

Definition type_error {A} (what : string) : M A := raise TypeError what.

Definition getattr_int (name : string) : M Z :=
  v ← getattr name;
  match v with PInt z => ret z | _ => type_error name end.

Definition getattr_arr (name : string) : M (list Z) :=
  v ← getattr name;
  match v with PIntArr a => ret a | _ => type_error name end.

Definition getattr_str (name : string) : M string :=
  v ← getattr name;
  match v with PStr s => ret s | _ => type_error name end.

Definition getattr_dict (name : string) : M (gmap string pyval) :=
  v ← getattr name;
  match v with PDict d => ret d | _ => type_error name end.

Definition getattr_list (name : string) : M (list pyval) :=
  v ← getattr name;
  match v with PList l => ret l | _ => type_error name end.

Definition chr (c : ascii) : string := String c EmptyString.

(** [d[key].append(x)] on a [defaultdict(list)]. *)
Definition defaultdict_append (d : gmap string pyval) (key : string) (x : pyval)
  : result (gmap string pyval) :=
  match default (PList []) (d !! key) with
  | PList l => Ok (<[key := PList (l ++ [x])]> d)
  | _ => Raise (Exn AttributeError "append")
  end.

(** [''.join(alphabet[b_i] for b_i in indices)] *)
Definition bases_at (alphabet : string) (indices : list Z) : result string :=
  string_of_list_ascii <$> mapM (getitem (list_ascii_of_string alphabet)) indices.

(** *** class ModelInfo *)

Module ModelInfo.

Definition unsupported_msg : string :=
  "Naive modified base flip-flop models are not supported.".

Definition chunk_args_msg : string :=
  "Must provide chunk_size, chunk_overlap, max_concur_chunks in order to run the taiyaki base calling backend.".

(** [np.cumsum(np.concatenate([[0], can_nmods[:-1] + 1]))] *)
Definition can_indices_of (can_nmods : list Z) : list Z :=
  cumsum (0 :: map (fun n => n + 1) (slice_to can_nmods (-1))).

(** [''.join(output_alphabet[b_i + 1:b_i + 1 + b_nmods]
             for b_i, b_nmods in zip(can_indices, can_nmods))] *)
Definition mod_bases_of (output_alphabet : string) (can_indices can_nmods : list Z)
  : string :=
  string_of_list_ascii
    (concat (zip_with
               (fun b_i b_nmods =>
                  slice (list_ascii_of_string output_alphabet)
                        (b_i + 1) (b_i + 1 + b_nmods))
               can_indices can_nmods)).

(** The loop of the compiled-model branch:
<<
    for base in self.output_alphabet:
        if base in can_bases:
            curr_can_base = base
        else:
            self.can_base_mod[curr_can_base].append(base)
>> *)
Fixpoint flappie_group_loop (can_bases bases : list ascii)
    (curr_can_base : option ascii) : M unit :=
  match bases with
  | [] => ret tt
  | base :: rest =>
      if bool_decide (base ∈ can_bases)
      then flappie_group_loop can_bases rest (Some base)
      else
        d ← getattr_dict "can_base_mod";
        match curr_can_base with
        | None => raise UnboundLocalError "curr_can_base"
        | Some c =>
            d' ← lift (defaultdict_append d (chr c) (PStr (chr base)));
            setattr "can_base_mod" (PDict d');;
            flappie_group_loop can_bases rest curr_can_base
        end
  end.

(** Lines 35-56, the branch for ['r941_cat_mod']. *)
Definition init_flappie_cat_mod (rt : runtime) : M unit :=
  setattr "is_cat_mod" (PBool true);;
  '(can_nmods, output_alphabet) ← lift (flappy_get_cat_mods rt);
  setattr "output_alphabet" (PStr output_alphabet);;
  setattr "can_nmods" (PIntArr can_nmods);;
  cn ← getattr_arr "can_nmods";
  setattr "n_mods" (PInt (np_sum cn));;
  n_mods ← getattr_int "n_mods";
  setattr "output_size" (PInt (41 + n_mods));;
  cn ← getattr_arr "can_nmods";
  setattr "can_indices" (PIntArr (can_indices_of cn));;
  ci ← getattr_arr "can_indices";
  can_bases ← lift (bases_at output_alphabet ci);
  ci ← getattr_arr "can_indices";
  cn ← getattr_arr "can_nmods";
  let mod_bases := mod_bases_of output_alphabet ci cn in
  setattr "can_alphabet" (PStr can_bases);;
  setattr "mod_long_names"
    (PList (map (fun mod_b => PTuple [PStr (chr mod_b); PStr (chr mod_b)])
                (list_ascii_of_string mod_bases)));;
  setattr "can_base_mod" (PDict ∅);;
  oa ← getattr_str "output_alphabet";
  flappie_group_loop (list_ascii_of_string can_bases) (list_ascii_of_string oa) None;;
  d ← getattr_dict "can_base_mods";
  setattr "can_base_mods" (PDict d).

(** Lines 58-62. *)
Definition init_flappie_plain : M unit :=
  setattr "is_cat_mod" (PBool false);;
  setattr "can_alphabet" (PStr mh.ALPHABET);;
  setattr "mod_long_names" (PList []);;
  setattr "output_size" (PInt 40);;
  setattr "n_mods" (PInt 0).

Definition init_flappie (rt : runtime) (flappie_model_name : string) (num_proc : Z)
  : M unit :=
  setattr "model_type" (PStr FLP_NAME);;
  setattr "name" (PStr flappie_model_name);;
  (if flappy_importable rt then ret tt else raise ImportError "flappy");;
  setattr "flappy" (PHandle "flappy");;
  (if String.eqb flappie_model_name "r941_5mC"
   then raise NotImplementedError unsupported_msg else ret tt);;
  (if String.eqb flappie_model_name "r941_cat_mod"
   then init_flappie_cat_mod rt else init_flappie_plain);;
  (* flappie is CPU only *)
  setattr "process_devices" (PList (replicate (Z.to_nat num_proc) PNone)).

(** The loop of the trained-model branch:
<<
    for base_i, base in enumerate(self.output_alphabet):
        if base_i in self.can_indices:
            curr_can_base = base
            curr_mod_i = 0
        else:
            self.str_to_int_mod_labels[base] = curr_mod_i
            self.can_base_mods[curr_can_base].append(base)
            curr_mod_i += 1
>> *)
Fixpoint taiyaki_group_loop (bases : list ascii) (base_i : Z)
    (curr : option (ascii * Z)) : M unit :=
  match bases with
  | [] => ret tt
  | base :: rest =>
      ci ← getattr_arr "can_indices";
      if bool_decide (base_i ∈ ci)
      then taiyaki_group_loop rest (base_i + 1) (Some (base, 0))
      else
        match curr with
        | None => raise UnboundLocalError "curr_mod_i"
        | Some (curr_can_base, curr_mod_i) =>
            labels ← getattr_dict "str_to_int_mod_labels";
            setattr "str_to_int_mod_labels"
              (PDict (<[chr base := PInt curr_mod_i]> labels));;
            d ← getattr_dict "can_base_mods";
            d' ← lift (defaultdict_append d (chr curr_can_base) (PStr (chr base)));
            setattr "can_base_mods" (PDict d');;
            taiyaki_group_loop rest (base_i + 1) (Some (curr_can_base, curr_mod_i + 1))
        end
  end.

(** Lines 113-129. *)
Definition init_taiyaki_cat_mod (ff : ff_layer) : M unit :=
  setattr "output_alphabet" (PStr (ff_output_alphabet ff));;
  setattr "can_indices" (PIntArr (can_indices_of (ff_can_nmods ff)));;
  oa ← getattr_str "output_alphabet";
  ci ← getattr_arr "can_indices";
  can_alphabet ← lift (bases_at oa ci);
  setattr "can_alphabet" (PStr can_alphabet);;
  setattr "mod_long_names"
    (PList (map (fun kv => PTuple [PStr (fst kv); PStr (snd kv)])
                (ff_mod_long_names_conv ff)));;
  setattr "str_to_int_mod_labels" (PDict ∅);;
  setattr "can_base_mods" (PDict ∅);;
  oa ← getattr_str "output_alphabet";
  taiyaki_group_loop (list_ascii_of_string oa) 0 None;;
  d ← getattr_dict "can_base_mods";
  setattr "can_base_mods" (PDict d).

(** Lines 131-138. *)
Definition init_taiyaki_plain (ff : ff_layer) : M unit :=
  nbase ← lift (mh.nstate_to_nbase (ff_size ff));
  (if negb (nbase =? 4) then raise NotImplementedError unsupported_msg else ret tt);;
  setattr "output_alphabet" (PStr mh.ALPHABET);;
  setattr "can_alphabet" (PStr mh.ALPHABET);;
  setattr "mod_long_names" (PList []);;
  setattr "str_to_int_mod_labels" (PDict ∅).

Definition pyval_of_opt_int (o : option Z) : pyval :=
  match o with Some z => PInt z | None => PNone end.

(** Lines 88-139: imports, inspection of the model's last layer. *)
Definition init_taiyaki_model (rt : runtime) (taiyaki_model_fn : string) : M unit :=
  (* import modules *)
  (if taiyaki_importable rt then ret tt else raise ImportError "taiyaki");;
  (* store modules in object *)
  setattr "load_taiyaki_model" (PHandle "load_taiyaki_model");;
  setattr "tai_run_model" (PHandle "tai_run_model");;
  setattr "torch" (PHandle "torch");;
  sublayers ← lift (load_taiyaki_model rt taiyaki_model_fn);
  ff_layer ← lift (getitem sublayers (-1));
  setattr "is_cat_mod"
    (PBool (catmod_importable rt && ff_is_GlobalNormFlipFlopCatMod ff_layer));;
  setattr "output_size" (PInt (ff_size ff_layer));;
  v ← getattr "is_cat_mod";
  match v with
  | PBool true => init_taiyaki_cat_mod ff_layer
  | _ => init_taiyaki_plain ff_layer
  end;;
  mln ← getattr_list "mod_long_names";
  setattr "n_mods" (PInt (Z.of_nat (length mln))).

(** Lines 66-86, then the rest of the branch. *)
Definition init_taiyaki (rt : runtime) (taiyaki_model_fn : string)
    (devices : option (list Z)) (num_proc : Z)
    (chunk_size chunk_overlap max_concur_chunks : option Z) : M unit :=
  (if bool_decide (chunk_size = None) || bool_decide (chunk_overlap = None)
      || bool_decide (max_concur_chunks = None)
   then raise NotImplementedError chunk_args_msg else ret tt);;
  setattr "model_type" (PStr TAI_NAME);;
  setattr "fn" (PStr taiyaki_model_fn);;
  setattr "chunk_size" (pyval_of_opt_int chunk_size);;
  setattr "chunk_overlap" (pyval_of_opt_int chunk_overlap);;
  setattr "max_concur_chunks" (pyval_of_opt_int max_concur_chunks);;
  setattr "devices"
    (match devices with Some ds => PList (PInt <$> ds) | None => PNone end);;
  ds ← match devices with
       | Some ds => ret ds
       | None => raise TypeError "object of type 'NoneType' has no len()"
       end;
  pd ← lift (process_devices ds num_proc);
  setattr "process_devices" (PList (PInt <$> pd));;
  init_taiyaki_model rt taiyaki_model_fn.

Definition __init__ (rt : runtime)
    (flappie_model_name taiyaki_model_fn : option string)
    (devices : option (list Z)) (num_proc : Z)
    (chunk_size chunk_overlap max_concur_chunks : option Z) : M unit :=
  match flappie_model_name, taiyaki_model_fn with
  | Some name, _ => init_flappie rt name num_proc
  | None, Some fn =>
      init_taiyaki rt fn devices num_proc chunk_size chunk_overlap max_concur_chunks
  | None, None => raise MegaError "Invalid model specification."
  end.


(** The methods below run on [self] and on the process state of the
    wrapped runtimes. *)
Abbreviation proc := (obj * world)%type.

Definition on_self {A} (m : M A) : St proc A :=
  fun s => let '(self', r) := m (fst s) in ((self', snd s), r).

Definition on_world {A} (f : world -> world * result A) : St proc A :=
  fun s => let '(w', r) := f (snd s) in ((fst s, w'), r).

Definition emit (e : rt_event) : St proc unit :=
  on_world (fun w => ({| w_heap := w_heap w; w_log := w_log w ++ [e] |}, Ok tt)).

Definition on_heap {A} (f : heap -> heap * A) : St proc A :=
  on_world (fun w =>
    let '(h', a) := f (w_heap w) in
    ({| w_heap := h'; w_log := w_log w |}, Ok a)).

Definition is_str (v : pyval) (s : string) : bool :=
  match v with PStr s' => String.eqb s' s | _ => false end.

Definition is_cpu (v : pyval) : bool :=
  match v with PTorchDevice None => true | _ => false end.

Definition prep_model_worker (rt : runtime) (device : option Z) : St proc unit :=
  model_type ← on_self (getattr "model_type");
  if is_str model_type TAI_NAME then
    (* setup for taiyaki model *)
    _ ← on_self (getattr "load_taiyaki_model");
    fn ← on_self (getattr_str "fn");
    _ ← lift (load_taiyaki_model rt fn);
    emit (EvLoadModel fn);;
    on_self (setattr "model" (PHandle fn));;
    match device with
    | Some d =>
        on_self (getattr "torch");;
        on_self (setattr "device" (PTorchDevice (Some d)));;
        on_self (getattr "torch");;
        on_self (getattr "device");;
        emit (EvCudaSetDevice d);;
        model ← on_self (getattr "model");
        emit EvModelToCuda;;
        on_self (setattr "model" model)
    | None =>
        on_self (getattr "torch");;
        on_self (setattr "device" (PTorchDevice None))
    end;;
    model ← on_self (getattr "model");
    emit EvModelEval;;
    on_self (setattr "model" model)
  else ret tt.

(** The call guarded by [try] in [run_model]:
<<
    self.tai_run_model(
        raw_sig, self.model, self.chunk_size, self.chunk_overlap,
        self.max_concur_chunks)
>> *)
Definition tai_call (rt : runtime) (raw_sig : list float32) : St proc ndarray :=
  on_self (getattr "tai_run_model");;
  model ← on_self (getattr "model");
  chunk_size ← on_self (getattr "chunk_size");
  chunk_overlap ← on_self (getattr "chunk_overlap");
  max_concur_chunks ← on_self (getattr "max_concur_chunks");
  on_world (tai_run_model rt raw_sig model chunk_size chunk_overlap
                          max_concur_chunks).

Definition run_model (rt : runtime) (raw_sig : list float32)
    (n_can_state : option Z) : St proc weights :=
  model_type ← on_self (getattr "model_type");
  if is_str model_type FLP_NAME then
    on_self (getattr "flappy");;
    (* flappy will return split bc and mods based on model *)
    on_self (getattr "flappy");;
    name ← on_self (getattr_str "name");
    on_world (flappy_run_network rt raw_sig name)
  else
    model_type ← on_self (getattr "model_type");
    if is_str model_type TAI_NAME then
      trans_weights ←
        catch (tai_call rt raw_sig)
          (fun e =>
             if issubclass (exn_cls e) AttributeError
             then Some (raise MegaError "Out of date or incompatible model")
             else if issubclass (exn_cls e) RuntimeError
             then Some (raise MegaError "Likely out of memory error.")
             else None);
      device ← on_self (getattr "device");
      on_self (getattr "torch");;
      (if negb (is_cpu device)
       then on_self (getattr "torch");; emit EvEmptyCache
       else ret tt);;
      match n_can_state with
      | Some n =>
          can ← on_heap (ascontiguousarray (cols_to trans_weights n));
          mods ← on_heap (ascontiguousarray (cols_from trans_weights n));
          ret (Split can mods)
      | None => ret (Whole trans_weights)
      end
    else raise MegaError "Invalid model type.".

End ModelInfo.
End backends.

Import backends.

(* ================================================================== *)
(** ** Concrete runtimes and inputs *)
(* ================================================================== *)

Module Demo.

Definition plain_layer (size : Z) : ff_layer :=
  {| ff_is_GlobalNormFlipFlopCatMod := false;
     ff_size := size;
     ff_output_alphabet := "";
     ff_can_nmods := [];
     ff_mod_long_names_conv := [] |}.

Definition empty_world : world := {| w_heap := []; w_log := [] |}.

(** A runtime whose compiled backend declares [cat_mods], whose trained
    model ends in [layer], and whose chunked inference behaves as
    [infer]. *)
Definition runtime_of (cat_mods : result (list Z * string)) (layer : ff_layer)
    (infer : world -> world * result ndarray) : runtime :=
  {| flappy_importable := true;
     flappy_get_cat_mods := cat_mods;
     flappy_run_network := fun _ _ w => (w, Raise (Exn RuntimeError "flappie"));
     taiyaki_importable := true;
     catmod_importable := true;
     load_taiyaki_model := fun _ => Ok [layer];
     tai_run_model := fun _ _ _ _ _ => infer |}.

Definition no_cat_mods : result (list Z * string) :=
  Raise (Exn RuntimeError "not a cat_mod model").

(** A compiled runtime declaring the counts [1,0,2,0] over "AZCGYXT". *)
Definition cat_mod_runtime : runtime :=
  runtime_of (Ok ([1; 0; 2; 0], "AZCGYXT")) (plain_layer 40)
    (fun w => (w, Raise (Exn RuntimeError ""))).

(** A runtime whose chunked inference raises an exception of class [c]. *)
Definition raising_runtime (c : exn_class) : runtime :=
  runtime_of no_cat_mods (plain_layer 40) (fun w => (w, Raise (Exn c ""))).

(** A trained-model [ModelInfo] on one device, constructed and prepared
    in a worker. *)
Definition trained_self (rt : runtime) (device : option Z) : obj :=
  let self :=
    fst (ModelInfo.__init__ rt None (Some "model.checkpoint") (Some [0]) 1
           (Some 1000) (Some 100) (Some 50) ∅) in
  fst (fst (ModelInfo.prep_model_worker rt device (self, empty_world))).

(** A C-contiguous [rows] x [cols] array that owns buffer [buf]. *)
Definition matrix_at (buf rows cols : nat) : ndarray :=
  {| nd_buf := buf; nd_off := 0; nd_rows := rows; nd_cols := cols;
     nd_rstride := cols; nd_cstride := 1 |}.

(** A runtime whose chunked inference returns a new [rows] x [cols]
    matrix holding [data]. *)
Definition returning_runtime (rows cols : nat) (data : list Z) : runtime :=
  runtime_of no_cat_mods (plain_layer 40)
    (fun w =>
       ({| w_heap := w_heap w ++ [map f32_of_Z data]; w_log := w_log w |},
        Ok (matrix_at (length (w_heap w)) rows cols))).

(** The final layer of a trained cat_mod model: one modified base for
    A, two for G, over the alphabet "AZCGYXT". *)
Definition cat_mod_layer : ff_layer :=
  {| ff_is_GlobalNormFlipFlopCatMod := true;
     ff_size := 44;
     ff_output_alphabet := "AZCGYXT";
     ff_can_nmods := [1; 0; 2; 0];
     ff_mod_long_names_conv := [("Z", "6mA"); ("Y", "5mC"); ("X", "5hmC")] |}.

(** A container with one read: integer samples and, possibly, a
    [read_id] attribute. *)
Definition read_slot (read_id : option mh.attr) (samples : list Z) : mh.raw_slot :=
  {| mh.Signal := Some (mh.IntData samples);
     mh.attrs := match read_id with
                 | Some a => {["read_id" := a]}
                 | None => ∅
                 end |}.

Definition one_read (slot : mh.raw_slot) : mh.filesystem :=
  fun fn =>
    if String.eqb fn "read.fast5" then Some {| mh.Raw_Reads := Some [slot] |}
    else None.

End Demo.

(* ================================================================== *)
(** ** Vocabulary of the statements *)
(* ================================================================== *)


(** Code that leaves the attribute [k] as it found it. *)
Definition preserves (k : string) {A} (m : M A) : Prop :=
  forall s, fst (m s) !! k = s !! k.

(** *** Floating-point numbers with an exact value *)

(** Shifts of positive mantissas by a natural number of bits. *)
Definition shl (p : positive) (k : nat) : positive := Nat.iter k xO p.


(** Number of binary digits of a mantissa. *)
Definition dig (p : positive) : nat := Pos.to_nat (digits2_pos p).

Section CanonicalForm.
Variables prec emax : Z.

(** Bits by which a mantissa must be shifted left to fill the precision. *)
Definition lead (p : positive) : nat := Z.to_nat prec - dig p.

(** The canonical float of value [p * 2^e], for a mantissa of at most
    [prec] digits and an exponent in the normal range. *)
Definition nf (s : bool) (p : positive) (e : Z) : spec_float :=
  S754_finite s (shl p (lead p)) (e - Z.of_nat (lead p)).

Definition fits (p : positive) (e : Z) : Prop :=
  (dig p <= Z.to_nat prec)%nat
  /\ emin prec emax <= e - Z.of_nat (lead p) <= emax - prec.

End CanonicalForm.


Ltac run_M :=
  cbv beta iota zeta delta
    [mbind St_bind bind ret raise lift setattr getattr orb].

Ltac lookup_step :=
  repeat first
    [ rewrite lookup_insert_eq
    | rewrite lookup_insert_ne by discriminate
    | rewrite lookup_empty ].

Ltac step_M := run_M; lookup_step; cbv beta iota.

(** The complement of a base; a character that is not one of A, C, G, T
    is its own complement. *)
Definition complement (c : ascii) : ascii :=
  if Ascii.eqb c "A" then "T"%char
  else if Ascii.eqb c "C" then "G"%char
  else if Ascii.eqb c "G" then "C"%char
  else if Ascii.eqb c "T" then "A"%char
  else c.

(** Code that cannot complete on an object without the attribute [k],
    and leaves the object without it. *)
Definition raises_without (k : string) {A} (m : M A) : Prop :=
  forall s, s !! k = None -> is_Ok (snd (m s)) = false /\ fst (m s) !! k = None.

(** *** The layout of a cat_mod alphabet

    A layout is a list of groups, a canonical base with its modified
    bases; the alphabet lists the groups one after the other. *)
Definition layout := list (ascii * list ascii).

Definition alphabet_of (groups : layout) : list ascii :=
  concat (map (fun g => fst g :: snd g) groups).

Definition nmods_of (groups : layout) : list Z :=
  map (fun g => Z.of_nat (length (snd g))) groups.

(** Positions of the canonical bases, for a first group at position [o]. *)
Fixpoint starts_from (o : Z) (groups : layout) : list Z :=
  match groups with
  | [] => []
  | g :: gs => o :: starts_from (o + 1 + Z.of_nat (length (snd g))) gs
  end.

Definition mod_list (ms : list ascii) : pyval :=
  PList (map (fun m => PStr (chr m)) ms).

(** The modified bases of one group, entered under its canonical base
    once the first of them has been seen. *)
Definition add_mods (c : ascii) (ms : list ascii) (d : gmap string pyval)
  : gmap string pyval :=
  match ms with
  | [] => d
  | _ => <[chr c := mod_list ms]> d
  end.

(** The labels of the modified bases of one group, counted from [j]. *)
Fixpoint add_labels (j : Z) (ms : list ascii) (lab : gmap string pyval)
  : gmap string pyval :=
  match ms with
  | [] => lab
  | m :: ms' => add_labels (j + 1) ms' (<[chr m := PInt j]> lab)
  end.

(** The object during the grouping loop of the trained backend: the two
    dictionaries over the attributes [s0] assigned before. *)
Definition loop_state (s0 : obj) (lab d : gmap string pyval) : obj :=
  <["can_base_mods" := PDict d]> (<["str_to_int_mod_labels" := PDict lab]> s0).

(** Code that, when it completes, leaves the attribute [k] with the
    value [v]; and code that completes only when [Q] holds. *)
Definition assigns (k : string) (v : pyval) {A} (m : M A) : Prop :=
  forall s s' a, m s = (s', Ok a) -> s' !! k = Some v.


(* ================================================================== *)
(** * Properties *)
(* ================================================================== *)

(** ** Construction: argument validation *)


(** ** Stepping through monadic code *)

Lemma pair_eq_snd {A B} (p : A * B) (b : B) : snd p = b -> p = (fst p, b).
Proof. intros <-. apply surjective_pairing. Defined.

Section Steps.
Context {S A B : Type}.

Lemma bind_ok (m : St S A) (k : A -> St S B) s s' a :
  m s = (s', Ok a) -> (m ≫= k) s = k a s'.
Proof. intros H. unfold mbind, St_bind, bind. rewrite H. reflexivity. Qed.

Lemma bind_raise (m : St S A) (k : A -> St S B) s s' e :
  m s = (s', Raise e) -> (m ≫= k) s = (s', Raise e).
Proof. intros H. unfold mbind, St_bind, bind. rewrite H. reflexivity. Qed.

Lemma catch_ok (m : St S A) h s s' a :
  m s = (s', Ok a) -> catch m h s = (s', Ok a).
Proof. intros H. unfold catch. rewrite H. reflexivity. Qed.

Lemma catch_handled (m : St S A) h s s' e k :
  m s = (s', Raise e) -> h e = Some k -> catch m h s = k s'.
Proof. intros H Hh. unfold catch. rewrite H, Hh. reflexivity. Qed.
End Steps.

Lemma on_self_getattr (name : string) (self : obj) (w : world) v :
  self !! name = Some v ->
  ModelInfo.on_self (getattr name) (self, w) = ((self, w), Ok v).
Proof.
  intros H. unfold ModelInfo.on_self, getattr. cbn [fst snd]. rewrite H. reflexivity.
Qed.

(** ** run_model: classification of failures *)

Lemma runtime_error_not_attribute_error c :
  issubclass c RuntimeError = true -> issubclass c AttributeError = false.
Proof. destruct c; vm_compute; congruence. Qed.

(** C7. On the trained backend, a failure of the chunked-inference call
    with an [AttributeError] surfaces as [MegaError("Out of date or
    incompatible model")], a failure with a [RuntimeError] as
    [MegaError("Likely out of memory error.")]; and an object whose
    [model_type] is neither the compiled nor the trained kind makes
    [run_model] raise [MegaError("Invalid model type.")]. *)
Theorem run_model_error_classification :
  forall rt raw_sig n_can_state self w,
    (forall s' e,
        self !! "model_type" = Some (PStr TAI_NAME) ->
        ModelInfo.tai_call rt raw_sig (self, w) = (s', Raise e) ->
        (issubclass (exn_cls e) AttributeError = true ->
         ModelInfo.run_model rt raw_sig n_can_state (self, w)
           = (s', Raise (Exn MegaError "Out of date or incompatible model")))
        /\ (issubclass (exn_cls e) RuntimeError = true ->
            ModelInfo.run_model rt raw_sig n_can_state (self, w)
              = (s', Raise (Exn MegaError "Likely out of memory error."))))
    /\ (forall v,
           self !! "model_type" = Some v ->
           ModelInfo.is_str v FLP_NAME = false ->
           ModelInfo.is_str v TAI_NAME = false ->
           ModelInfo.run_model rt raw_sig n_can_state (self, w)
             = ((self, w), Raise (Exn MegaError "Invalid model type."))).
Proof.
  intros rt raw_sig n self w. split.
  - intros s' e Hty Hcall.
    assert (Hrun : forall msg,
      (if issubclass (exn_cls e) AttributeError
       then Some (raise MegaError "Out of date or incompatible model")
       else if issubclass (exn_cls e) RuntimeError
            then Some (raise MegaError "Likely out of memory error.")
            else None) = Some (raise (S := ModelInfo.proc) (A := ndarray) MegaError msg) ->
      ModelInfo.run_model rt raw_sig n (self, w) = (s', Raise (Exn MegaError msg))).
    { intros msg Hh. unfold ModelInfo.run_model.
      rewrite (bind_ok _ _ _ _ _ (on_self_getattr _ _ _ _ Hty)).
      change (ModelInfo.is_str (PStr TAI_NAME) FLP_NAME) with false. cbn iota.
      rewrite (bind_ok _ _ _ _ _ (on_self_getattr _ _ _ _ Hty)).
      change (ModelInfo.is_str (PStr TAI_NAME) TAI_NAME) with true. cbn iota.
      apply bind_raise. rewrite (catch_handled _ _ _ _ _ _ Hcall Hh). reflexivity. }
    split; intros Hc; apply Hrun.
    + rewrite Hc. reflexivity.
    + rewrite (runtime_error_not_attribute_error _ Hc), Hc. reflexivity.
  - intros v Hty Hf Ht. unfold ModelInfo.run_model.
    rewrite (bind_ok _ _ _ _ _ (on_self_getattr _ _ _ _ Hty)), Hf.
    rewrite (bind_ok _ _ _ _ _ (on_self_getattr _ _ _ _ Hty)), Ht.
    reflexivity.
Qed.

Lemma run_model_error_classification_witness :
  let rt_a := Demo.raising_runtime AttributeError in
  let rt_r := Demo.raising_runtime RuntimeError in
  let other : obj := {["model_type" := PStr "guppy"]} in
  let start rt := (Demo.trained_self rt None, Demo.empty_world) in
  ModelInfo.run_model rt_a [] None (start rt_a)
    = (fst (ModelInfo.tai_call rt_a [] (start rt_a)),
       Raise (Exn MegaError "Out of date or incompatible model"))
  /\ ModelInfo.run_model rt_r [] None (start rt_r)
    = (fst (ModelInfo.tai_call rt_r [] (start rt_r)),
       Raise (Exn MegaError "Likely out of memory error."))
  /\ ModelInfo.run_model rt_a [] None (other, Demo.empty_world)
    = ((other, Demo.empty_world), Raise (Exn MegaError "Invalid model type.")).
Proof.
  intros rt_a rt_r other start. split; [|split].
  - apply (proj1 (run_model_error_classification rt_a [] None
                    (Demo.trained_self rt_a None) Demo.empty_world)
             _ (Exn AttributeError "")).
    + vm_compute; reflexivity.
    + apply pair_eq_snd. vm_compute; reflexivity.
    + vm_compute; reflexivity.
  - apply (proj1 (run_model_error_classification rt_r [] None
                    (Demo.trained_self rt_r None) Demo.empty_world)
             _ (Exn RuntimeError "")).
    + vm_compute; reflexivity.
    + apply pair_eq_snd. vm_compute; reflexivity.
    + vm_compute; reflexivity.
  - apply (proj2 (run_model_error_classification rt_a [] None other
                    Demo.empty_world) (PStr "guppy"));
      vm_compute; reflexivity.
Defined.


(** ** Construction: the base count of a plain trained model *)

(** C5 (amended). For a plain trained model, when construction reaches
    the check on the final layer: a derived base count other than 4 makes
    it fail at once with [NotImplementedError] ("Naive modified base
    flip-flop models are not supported."), before any alphabet is
    assigned; a derived base count of exactly 4 passes the check, and
    construction completes with the canonical alphabet and no
    modifications. *)
Theorem plain_model_base_count_check :
  forall rt fn devices num_proc cs co mcc pd sublayers ff nbase,
    process_devices devices num_proc = Ok pd ->
    taiyaki_importable rt = true ->
    load_taiyaki_model rt fn = Ok sublayers ->
    getitem sublayers (-1) = Ok ff ->
    catmod_importable rt && ff_is_GlobalNormFlipFlopCatMod ff = false ->
    mh.nstate_to_nbase (ff_size ff) = Ok nbase ->
    let r := ModelInfo.__init__ rt None (Some fn) (Some devices) num_proc
               (Some cs) (Some co) (Some mcc) ∅ in
    (nbase <> 4 ->
       snd r = Raise (Exn NotImplementedError ModelInfo.unsupported_msg)
       /\ fst r !! "output_alphabet" = None)
    /\ (nbase = 4 ->
          snd r = Ok tt
          /\ fst r !! "output_alphabet" = Some (PStr "ACGT")
          /\ fst r !! "can_alphabet" = Some (PStr "ACGT")
          /\ fst r !! "n_mods" = Some (PInt 0)
          /\ fst r !! "output_size" = Some (PInt (ff_size ff))).
Proof.
  intros rt fn devices num_proc cs co mcc pd sublayers ff nbase
         Hpd Himp Hload Hget Hcat Hnb r.
  subst r. unfold ModelInfo.__init__, ModelInfo.init_taiyaki.
  rewrite !bool_decide_eq_false_2 by discriminate.
  run_M. rewrite Hpd. unfold ModelInfo.init_taiyaki_model.
  run_M. rewrite Himp, Hload.
  run_M. rewrite Hget.
  run_M. rewrite Hcat. unfold ModelInfo.init_taiyaki_plain.
  run_M. rewrite Hnb.
  split; intros Hn.
  - apply Z.eqb_neq in Hn. rewrite Hn. vm_compute. auto.
  - subst nbase. vm_compute. auto 10.
Qed.

Lemma plain_model_base_count_check_witness :
  let rt n := Demo.runtime_of Demo.no_cat_mods (Demo.plain_layer n)
                (fun w => (w, Raise (Exn RuntimeError ""))) in
  let r n := ModelInfo.__init__ (rt n) None (Some "model.checkpoint") (Some [0]) 1
               (Some 1000) (Some 100) (Some 50) ∅ in
  (snd (r 24) = Raise (Exn NotImplementedError ModelInfo.unsupported_msg)
   /\ fst (r 24) !! "output_alphabet" = None)
  /\ (snd (r 40) = Ok tt
      /\ fst (r 40) !! "output_alphabet" = Some (PStr "ACGT")
      /\ fst (r 40) !! "can_alphabet" = Some (PStr "ACGT")
      /\ fst (r 40) !! "n_mods" = Some (PInt 0)
      /\ fst (r 40) !! "output_size" = Some (PInt 40)).
Proof.
  intros rt r. split.
  - refine (proj1 (plain_model_base_count_check (rt 24) "model.checkpoint" [0] 1
               1000 100 50 [0] [Demo.plain_layer 24] (Demo.plain_layer 24) 3
               _ _ _ _ _ _) _);
      try (vm_compute; reflexivity).
    discriminate.
  - refine (proj2 (plain_model_base_count_check (rt 40) "model.checkpoint" [0] 1
               1000 100 50 [0] [Demo.plain_layer 40] (Demo.plain_layer 40) 4
               _ _ _ _ _ _) _);
      vm_compute; reflexivity.
Defined.

(** C5, as stated, fails: a plain trained model of output size 24
    (derived base count 3) is rejected with [NotImplementedError], which is
    not a [MegaError]. *)
Lemma plain_model_mismatch_is_not_MegaError :
  let rt := Demo.runtime_of Demo.no_cat_mods (Demo.plain_layer 24)
              (fun w => (w, Raise (Exn RuntimeError ""))) in
  let r := ModelInfo.__init__ rt None (Some "model.checkpoint") (Some [0]) 1
             (Some 1000) (Some 100) (Some 50) ∅ in
  mh.nstate_to_nbase 24 = Ok 3
  /\ snd r = Raise (Exn NotImplementedError ModelInfo.unsupported_msg)
  /\ issubclass NotImplementedError MegaError = false
  /\ ~ (exists msg, snd r = Raise (Exn MegaError msg)).
Proof.
  intros rt r.
  assert (Hr : snd r = Raise (Exn NotImplementedError ModelInfo.unsupported_msg))
    by (vm_compute; reflexivity).
  repeat split; try (vm_compute; reflexivity).
  intros [msg Hm]. rewrite Hr in Hm. discriminate Hm.
Qed.

(** ** Construction: the compiled cat_mod model *)







(** ** The ordering behind [np.median]

    [sort] returns a rearrangement of its argument that is non-decreasing
    for [<=] on binary32, provided no element is NaN (numpy places NaN
    last; the comparison-based sort below does not order them). *)

Lemma SFcompare_antisym x y c :
  SFcompare x y = Some c -> SFcompare y x = Some (CompOpp c).
Proof.
  destruct x as [sx|sx| |sx mx ex], y as [sy|sy| |sy my ey]; cbn [SFcompare];
    try discriminate;
    try (intros [= <-]; repeat match goal with b : bool |- _ => destruct b end;
         reflexivity).
  intros [= <-]. destruct sx, sy; try reflexivity.
  - rewrite (Z.compare_antisym ex ey).
    destruct (ex ?= ey) eqn:He; cbn [CompOpp]; try reflexivity.
    rewrite CompOpp_involutive. f_equal.
    exact (Pos.compare_cont_antisym my mx Eq).
  - rewrite (Z.compare_antisym ex ey).
    destruct (ex ?= ey) eqn:He; cbn [CompOpp]; try reflexivity.
    f_equal. symmetry. exact (Pos.compare_cont_antisym mx my Eq).
Qed.

Lemma f32_leb_total x y :
  is_nan x = false -> is_nan y = false -> f32_leb x y = false -> f32_leb y x = true.
Proof.
  intros Hx Hy. unfold f32_leb, SFleb.
  destruct (SFcompare x y) as [c|] eqn:Hc.
  - rewrite (SFcompare_antisym x y c Hc). destruct c; cbn; congruence.
  - destruct x, y; cbn in *; try discriminate;
      repeat match goal with b : bool |- _ => destruct b end; discriminate.
Qed.

Lemma insert_sorted_permutation x l : Permutation (insert_sorted x l) (x :: l).
Proof.
  induction l as [|y l IH]; [reflexivity|].
  cbn [insert_sorted]. destruct (f32_leb x y); [reflexivity|].
  rewrite IH. apply perm_swap.
Qed.

(** [sort] rearranges the data. *)
Lemma sort_permutation l : Permutation (sort l) l.
Proof.
  unfold sort. induction l as [|x l IH]; [reflexivity|].
  cbn [foldr]. rewrite insert_sorted_permutation, IH. reflexivity.
Qed.

Lemma insert_sorted_sorted x l :
  is_nan x = false -> forallb (fun y => negb (is_nan y)) l = true ->
  Sorted (fun a b => f32_leb a b = true) l ->
  Sorted (fun a b => f32_leb a b = true) (insert_sorted x l).
Proof.
  intros Hx Hl Hs. induction Hs as [|y l Hs IH Hhd]; cbn [insert_sorted].
  - repeat constructor.
  - cbn [forallb] in Hl. apply andb_true_iff in Hl as [Hy Hl].
    apply negb_true_iff in Hy.
    destruct (f32_leb x y) eqn:Hxy.
    + constructor; [constructor; assumption|constructor; exact Hxy].
    + constructor; [apply IH, Hl|].
      pose proof (f32_leb_total x y Hx Hy Hxy) as Hyx.
      destruct l as [|z l]; cbn [insert_sorted].
      * constructor. exact Hyx.
      * destruct (f32_leb x z); constructor; [exact Hyx|].
        inversion Hhd; assumption.
Qed.

(** The result is in non-decreasing order when the data holds no NaN. *)
Lemma sort_sorted l :
  forallb (fun y => negb (is_nan y)) l = true ->
  Sorted (fun a b => f32_leb a b = true) (sort l).
Proof.
  unfold sort. induction l as [|x l IH]; intros Hl; [constructor|].
  cbn [forallb] in Hl. apply andb_true_iff in Hl as [Hx Hl].
  apply negb_true_iff in Hx. cbn [foldr].
  apply insert_sorted_sorted; [exact Hx| |apply IH, Hl].
  clear IH Hx. unfold sort.
  assert (Hperm := sort_permutation l). unfold sort in Hperm.
  apply forallb_forall. intros y Hy. rewrite forallb_forall in Hl. apply Hl.
  apply (Permutation_in y Hperm Hy).
Qed.

(** ** Signal extraction *)

Lemma extract_read_data_ok fs fn scale f slot sig :
  fs fn = Some f ->
  mh.first_raw_slot f = Ok slot ->
  mh.read_signal slot = Ok sig ->
  mh.extract_read_data fs fn scale
  = ([mh.FileOpen fn; mh.FileClose fn],
     Ok (if scale
         then map (fun x => f32_div (f32_sub x (fst (mh.med_mad sig None)))
                                    (snd (mh.med_mad sig None))) sig
         else sig,
         mh.read_id_of slot)).
Proof.
  intros Hf Hslot Hsig. unfold mh.extract_read_data.
  rewrite Hf, Hslot, Hsig. destruct scale; [|reflexivity].
  destruct (mh.med_mad sig None); reflexivity.
Qed.




(** C6 (amended). Whenever the signal of a read is read, the routine
    succeeds whatever happens to the read identifier: the identifier is
    [None] when the attribute is missing or cannot be read, it is the raw,
    undecoded attribute value when the attribute is there but its
    [decode] step fails, and the decoded string otherwise. *)
Theorem read_id_failure_is_not_fatal :
  forall fs fn scale f slot sig,
    fs fn = Some f ->
    mh.first_raw_slot f = Ok slot ->
    mh.read_signal slot = Ok sig ->
    exists out rid,
      snd (mh.extract_read_data fs fn scale) = Ok (out, rid)
      /\ (mh.attrs slot !! "read_id" = None -> rid = PNone)
      /\ (mh.attrs slot !! "read_id" = Some mh.Unreadable -> rid = PNone)
      /\ (forall v e, mh.attrs slot !! "read_id" = Some (mh.Readable v) ->
                      mh.decode v = Raise e -> rid = v)
      /\ (forall v s, mh.attrs slot !! "read_id" = Some (mh.Readable v) ->
                      mh.decode v = Ok s -> rid = s).
Proof.
  intros fs fn scale f slot sig Hf Hslot Hsig.
  rewrite (extract_read_data_ok _ _ _ _ _ _ Hf Hslot Hsig). cbn [snd].
  eexists _, _. split; [reflexivity|].
  unfold mh.read_id_of, mh.attrs_get.
  repeat split.
  - intros ->. reflexivity.
  - intros ->. reflexivity.
  - intros v e -> ->. reflexivity.
  - intros v s -> ->. reflexivity.
Qed.

Lemma read_id_failure_is_not_fatal_witness :
  let fs ra := Demo.one_read (Demo.read_slot ra [1; 2; 3]) in
  (exists out,
      snd (mh.extract_read_data (fs None) "read.fast5" false) = Ok (out, PNone))
  /\ (exists out,
         snd (mh.extract_read_data (fs (Some (mh.Readable (PBytes [Byte.xff]))))
                "read.fast5" false)
         = Ok (out, PBytes [Byte.xff])).
Proof.
  intros fs. split.
  - destruct (read_id_failure_is_not_fatal (fs None) "read.fast5" false
                {| mh.Raw_Reads := Some [Demo.read_slot None [1; 2; 3]] |}
                (Demo.read_slot None [1; 2; 3]) (map f32_of_Z [1; 2; 3])
                eq_refl eq_refl eq_refl)
      as (out & rid & Heq & Hnone & _).
    exists out. rewrite Heq, (Hnone eq_refl). reflexivity.
  - set (a := mh.Readable (PBytes [Byte.xff])).
    destruct (read_id_failure_is_not_fatal (fs (Some a)) "read.fast5" false
                {| mh.Raw_Reads := Some [Demo.read_slot (Some a) [1; 2; 3]] |}
                (Demo.read_slot (Some a) [1; 2; 3]) (map f32_of_Z [1; 2; 3])
                eq_refl eq_refl eq_refl)
      as (out & rid & Heq & _ & _ & Hraw & _).
    exists out. rewrite Heq.
    rewrite (Hraw (PBytes [Byte.xff]) (Exn UnicodeDecodeError "invalid utf-8")
               eq_refl eq_refl).
    reflexivity.
Defined.

(** C6, as stated, fails: when the attribute is there and its decode
    step fails, the identifier returned is not [None] but the undecoded
    value that was assigned before the failure: bytes that are not UTF-8,
    or a [str] (which has no [decode]). *)
Lemma undecodable_read_id_is_kept :
  let fs v := Demo.one_read (Demo.read_slot (Some (mh.Readable v)) [1; 2; 3]) in
  mh.decode (PBytes [Byte.xff]) = Raise (Exn UnicodeDecodeError "invalid utf-8")
  /\ snd (mh.extract_read_data (fs (PBytes [Byte.xff])) "read.fast5" false)
     = Ok (map f32_of_Z [1; 2; 3], PBytes [Byte.xff])
  /\ mh.decode (PStr "read-1") = Raise (Exn AttributeError "decode")
  /\ snd (mh.extract_read_data (fs (PStr "read-1")) "read.fast5" false)
     = Ok (map f32_of_Z [1; 2; 3], PStr "read-1")
  /\ ~ (exists out, snd (mh.extract_read_data (fs (PBytes [Byte.xff])) "read.fast5" false)
                    = Ok (out, PNone)).
Proof.
  intros fs.
  assert (H : snd (mh.extract_read_data (fs (PBytes [Byte.xff])) "read.fast5" false)
              = Ok (map f32_of_Z [1; 2; 3], PBytes [Byte.xff]))
    by (vm_compute; reflexivity).
  repeat split; try (vm_compute; reflexivity).
  intros [out Hout]. rewrite H in Hout. discriminate Hout.
Qed.

(** ** Device allocation *)














Section Preserves.
Context (k : string).

Lemma preserves_ret {A} (a : A) : preserves k (ret a).
Proof. intros s. reflexivity. Qed.

Lemma preserves_raise {A} c msg : preserves k (raise (A := A) c msg).
Proof. intros s. reflexivity. Qed.

Lemma preserves_lift {A} (r : result A) : preserves k (lift r).
Proof. intros s. reflexivity. Qed.

Lemma preserves_getattr name : preserves k (getattr name).
Proof. intros s. unfold getattr. destruct (s !! name); reflexivity. Qed.

Lemma preserves_setattr name v : name <> k -> preserves k (setattr name v).
Proof. intros Hne s. unfold setattr. cbn [fst]. apply lookup_insert_ne, Hne. Qed.

Lemma preserves_bind {A B} (m : M A) (f : A -> M B) :
  preserves k m -> (forall a, preserves k (f a)) -> preserves k (m ≫= f).
Proof.
  intros Hm Hf s. unfold mbind, St_bind, bind.
  specialize (Hm s). destruct (m s) as [s' [a|e]]; cbn [fst] in *.
  - rewrite Hf. exact Hm.
  - exact Hm.
Qed.
End Preserves.

Ltac preserves_step :=
  first
    [ apply preserves_bind; [|intros ?]
    | apply preserves_ret
    | apply preserves_raise
    | apply preserves_lift
    | apply preserves_getattr
    | apply preserves_setattr; discriminate
    | match goal with
      | |- preserves _ (match ?x with _ => _ end) => destruct x
      | |- preserves _ (if ?b then _ else _) => destruct b
      | |- preserves _ (let '(_, _) := ?x in _) => destruct x
      end ].

Ltac solve_preserves :=
  unfold getattr_int, getattr_arr, getattr_str, getattr_dict, getattr_list,
         type_error;
  repeat preserves_step.

Lemma taiyaki_group_loop_preserves k bases base_i curr :
  k <> "str_to_int_mod_labels" -> k <> "can_base_mods" ->
  preserves k (ModelInfo.taiyaki_group_loop bases base_i curr).
Proof.
  intros H1 H2. revert base_i curr.
  induction bases as [|base rest IH]; intros base_i curr;
    cbn [ModelInfo.taiyaki_group_loop].
  - apply preserves_ret.
  - unfold getattr_arr, getattr_dict, type_error.
    repeat first [ apply IH
                 | apply preserves_setattr; congruence
                 | preserves_step ].
Qed.





Example process_devices_7_over_3 :
  procs_per_device 7 3 = Ok [3; 2; 2]
  /\ process_devices [0; 1; 2] 7 = Ok [0; 0; 0; 1; 1; 2; 2].
Proof. split; reflexivity. Qed.

(** ** Column splitting *)

Lemma norm_slice_index_range len i :
  0 <= len -> 0 <= norm_slice_index len i <= len.
Proof. intros H. unfold norm_slice_index. destruct (Z.ltb_spec i 0); lia. Qed.

Lemma take_drop_seq k lo n :
  (lo + k <= n)%nat -> take k (drop lo (seq 0 n)) = seq lo k.
Proof.
  intros H. rewrite drop_seq, take_seq. f_equal; lia.
Qed.

Lemma nd_get_slice_cols h a lo hi i j :
  nd_get h (slice_cols a lo hi) i j
  = nd_get h a i (Z.to_nat (norm_slice_index (Z.of_nat (nd_cols a)) lo) + j).
Proof.
  unfold nd_get, nd_index, slice_cols. cbn [nd_buf nd_off nd_rstride nd_cstride].
  destruct (h !! nd_buf a); [|reflexivity]. do 2 f_equal. lia.
Qed.

Lemma map_seq_from {A} (f : nat -> A) lo k :
  map f (seq lo k) = map (fun j => f (lo + j)%nat) (seq 0 k).
Proof.
  revert lo. induction k as [|k IH]; intros lo; [reflexivity|].
  cbn [seq map]. f_equal; [f_equal; lia|].
  rewrite IH, <- seq_shift, map_map.
  apply map_ext. intros j. f_equal. lia.
Qed.

Lemma nd_row_slice_cols h a lo hi i :
  nd_row h (slice_cols a lo hi) i = slice (nd_row h a i) lo hi.
Proof.
  unfold nd_row, slice. rewrite length_map, length_seq.
  set (w := Z.of_nat (nd_cols a)).
  pose proof (norm_slice_index_range w lo ltac:(lia)) as Hlo.
  pose proof (norm_slice_index_range w hi ltac:(lia)) as Hhi.
  change (nd_cols (slice_cols a lo hi))
    with (Z.to_nat (norm_slice_index w hi - norm_slice_index w lo)).
  rewrite skipn_map, firstn_map, take_drop_seq by lia.
  rewrite (map_seq_from (nd_get h a i)).
  apply map_ext. intros j. apply nd_get_slice_cols.
Qed.

Lemma to_matrix_slice_cols h a lo hi :
  to_matrix h (slice_cols a lo hi) = map (fun row => slice row lo hi) (to_matrix h a).
Proof.
  unfold to_matrix. rewrite map_map. cbn [slice_cols nd_rows].
  apply map_ext. intros i. apply nd_row_slice_cols.
Qed.

Lemma slice_to_from_app {A} (l : list A) n : slice_to l n ++ slice_from l n = l.
Proof. unfold slice_to, slice_from. apply take_drop. Qed.

Lemma slice_0_to {A} (l : list A) n : slice l 0 n = slice_to l n.
Proof.
  unfold slice, slice_to. 
  change (norm_slice_index (Z.of_nat (length l)) 0) with (Z.min 0 (Z.of_nat (length l))).
  rewrite Z.min_l by lia. cbn [Z.to_nat drop]. f_equal. lia.
Qed.

Lemma slice_from_len {A} (l : list A) n :
  slice l n (Z.of_nat (length l)) = slice_from l n.
Proof.
  unfold slice, slice_from.
  set (w := Z.of_nat (length l)).
  pose proof (norm_slice_index_range w n ltac:(lia)) as Hn.
  assert (Hw : norm_slice_index w w = w).
  { unfold norm_slice_index. destruct (Z.ltb_spec w 0); lia. }
  rewrite Hw. apply take_ge. rewrite length_drop. lia.
Qed.

Lemma length_nd_row h a i : length (nd_row h a i) = nd_cols a.
Proof. unfold nd_row. rewrite length_map, length_seq. reflexivity. Qed.

Lemma to_matrix_cols_to h a n :
  to_matrix h (cols_to a n) = map (fun row => slice_to row n) (to_matrix h a).
Proof.
  unfold cols_to. rewrite to_matrix_slice_cols.
  apply map_ext. intros row. apply slice_0_to.
Qed.

Lemma to_matrix_cols_from h a n :
  to_matrix h (cols_from a n) = map (fun row => slice_from row n) (to_matrix h a).
Proof.
  unfold cols_from. rewrite to_matrix_slice_cols.
  unfold to_matrix. rewrite !map_map.
  apply map_ext. intros i. rewrite <- (length_nd_row h a i). apply slice_from_len.
Qed.

Lemma zip_with_app_split {A} (m : list (list A)) n :
  zip_with app (map (fun row => slice_to row n) m) (map (fun row => slice_from row n) m)
  = m.
Proof.
  induction m as [|row m IH]; [reflexivity|].
  cbn [map zip_with]. rewrite slice_to_from_app, IH. reflexivity.
Qed.

Lemma nd_get_heap_app h x a i j :
  (nd_buf a < length h)%nat -> nd_get (h ++ x) a i j = nd_get h a i j.
Proof.
  intros Hb. unfold nd_get. rewrite lookup_app_l by exact Hb. reflexivity.
Qed.

Lemma to_matrix_heap_app h x a :
  (nd_buf a < length h)%nat -> to_matrix (h ++ x) a = to_matrix h a.
Proof.
  intros Hb. unfold to_matrix, nd_row.
  apply map_ext. intros i. apply map_ext. intros j. apply nd_get_heap_app, Hb.
Qed.

Lemma lookup_concat_uniform {A} (rows : list (list A)) c i j :
  Forall (fun row => length row = c) rows ->
  (j < c)%nat ->
  concat rows !! (i * c + j)%nat = rows !! i ≫= (.!! j).
Proof.
  intros Hrows Hj. revert i.
  induction Hrows as [|row rows Hrow Hrows IH]; intros i.
  - destruct i; reflexivity.
  - cbn [concat]. destruct i as [|i].
    + cbn. rewrite lookup_app_l by lia. reflexivity.
    + rewrite lookup_app_r by lia.
      replace (S i * c + j - length row)%nat with (i * c + j)%nat by lia.
      apply IH.
Qed.

Lemma map_fmap {A B} (f : A -> B) (l : list A) : map f l = f <$> l.
Proof. reflexivity. Qed.

Lemma to_matrix_lookup h a i j :
  (i < nd_rows a)%nat -> (j < nd_cols a)%nat ->
  to_matrix h a !! i ≫= (.!! j) = Some (nd_get h a i j).
Proof.
  intros Hi Hj. unfold to_matrix, nd_row. rewrite !map_fmap.
  rewrite list_lookup_fmap, lookup_seq_lt by exact Hi. cbn.
  rewrite list_lookup_fmap, lookup_seq_lt by exact Hj. reflexivity.
Qed.

Lemma to_matrix_row_lengths h a :
  Forall (fun row => length row = nd_cols a) (to_matrix h a).
Proof.
  unfold to_matrix. apply Forall_forall. intros row Hrow.
  apply list_elem_of_In, in_map_iff in Hrow as (i & <- & _). apply length_nd_row.
Qed.

(** The array a copy produces. *)
Lemma nd_get_copy h a i j :
  (i < nd_rows a)%nat -> (j < nd_cols a)%nat ->
  nd_get (h ++ [concat (to_matrix h a)])
         {| nd_buf := length h; nd_off := 0; nd_rows := nd_rows a;
            nd_cols := nd_cols a; nd_rstride := nd_cols a; nd_cstride := 1 |} i j
  = nd_get h a i j.
Proof.
  intros Hi Hj. unfold nd_get at 1, nd_index.
  cbn [nd_buf nd_off nd_rstride nd_cstride].
  rewrite list_lookup_middle by reflexivity.
  replace (0 + i * nd_cols a + j * 1)%nat with (i * nd_cols a + j)%nat by lia.
  rewrite (lookup_concat_uniform _ (nd_cols a)) by (apply to_matrix_row_lengths || exact Hj).
  rewrite to_matrix_lookup by assumption. reflexivity.
Qed.

Lemma to_matrix_ext h1 a1 h2 a2 :
  nd_rows a1 = nd_rows a2 -> nd_cols a1 = nd_cols a2 ->
  (forall i j, (i < nd_rows a1)%nat -> (j < nd_cols a1)%nat ->
               nd_get h1 a1 i j = nd_get h2 a2 i j) ->
  to_matrix h1 a1 = to_matrix h2 a2.
Proof.
  intros Hr Hc Hget. unfold to_matrix, nd_row. rewrite <- Hr, <- Hc.
  apply map_ext_in. intros i Hi. apply in_seq in Hi.
  apply map_ext_in. intros j Hj. apply in_seq in Hj.
  apply Hget; lia.
Qed.

Lemma ascontiguousarray_spec a h :
  let '(h', c) := ascontiguousarray a h in
  to_matrix h' c = to_matrix h a
  /\ is_c_contiguous c = true
  /\ (forall b, (nd_buf b < length h)%nat -> to_matrix h' b = to_matrix h b)
  /\ (length h <= length h')%nat
  /\ (is_c_contiguous a = true -> h' = h /\ c = a)
  /\ (is_c_contiguous a = false ->
      nd_buf c = length h /\ length h' = S (length h)).
Proof.
  unfold ascontiguousarray. destruct (is_c_contiguous a) eqn:Hc.
  - repeat split; auto; discriminate.
  - split.
    { apply to_matrix_ext; try reflexivity. cbn [nd_rows nd_cols].
      intros i j Hi Hj. apply nd_get_copy; assumption. }
    split.
    { unfold is_c_contiguous. cbn [nd_rows nd_cols nd_rstride nd_cstride].
      rewrite !Nat.eqb_refl, !orb_true_r. destruct (_ || _)%bool; reflexivity. }
    split; [intros b Hb; apply to_matrix_heap_app, Hb|].
    split; [rewrite length_app; lia|].
    split; [discriminate|].
    intros _. split; [reflexivity|]. rewrite length_app. cbn. lia.
Qed.

Lemma slice_to_nonneg {A} (l : list A) n : 0 <= n -> slice_to l n = take (Z.to_nat n) l.
Proof.
  intros Hn. unfold slice_to, norm_slice_index. destruct (Z.ltb_spec n 0); [lia|].
  destruct (Z.le_ge_cases n (Z.of_nat (length l))).
  - rewrite Z.min_l by lia. reflexivity.
  - rewrite Z.min_r, Nat2Z.id by lia. rewrite take_ge by lia. symmetry. apply take_ge. lia.
Qed.

Lemma slice_from_nonneg {A} (l : list A) n : 0 <= n -> slice_from l n = drop (Z.to_nat n) l.
Proof.
  intros Hn. unfold slice_from, norm_slice_index. destruct (Z.ltb_spec n 0); [lia|].
  destruct (Z.le_ge_cases n (Z.of_nat (length l))).
  - rewrite Z.min_l by lia. reflexivity.
  - rewrite Z.min_r, Nat2Z.id by lia. rewrite drop_ge by lia. symmetry. apply drop_ge. lia.
Qed.

Lemma run_model_taiyaki_ok rt raw_sig n self w w1 tw dev t :
  self !! "model_type" = Some (PStr TAI_NAME) ->
  ModelInfo.tai_call rt raw_sig (self, w) = ((self, w1), Ok tw) ->
  self !! "device" = Some dev ->
  self !! "torch" = Some t ->
  ModelInfo.run_model rt raw_sig (Some n) (self, w)
  = let log := if ModelInfo.is_cpu dev then w_log w1 else w_log w1 ++ [EvEmptyCache] in
    let '(h2, can) := ascontiguousarray (cols_to tw n) (w_heap w1) in
    let '(h3, mods) := ascontiguousarray (cols_from tw n) h2 in
    ((self, {| w_heap := h3; w_log := log |}), Ok (Split can mods)).
Proof.
  intros Hty Hcall Hdev Htorch. unfold ModelInfo.run_model.
  rewrite (bind_ok _ _ _ _ _ (on_self_getattr _ _ _ _ Hty)).
  change (ModelInfo.is_str (PStr TAI_NAME) FLP_NAME) with false. cbv iota.
  rewrite (bind_ok _ _ _ _ _ (on_self_getattr _ _ _ _ Hty)).
  change (ModelInfo.is_str (PStr TAI_NAME) TAI_NAME) with true. cbv iota.
  rewrite (bind_ok _ _ _ _ _ (catch_ok _ _ _ _ _ Hcall)).
  rewrite (bind_ok _ _ _ _ _ (on_self_getattr _ _ _ _ Hdev)).
  rewrite (bind_ok _ _ _ _ _ (on_self_getattr _ _ _ _ Htorch)).
  destruct (ModelInfo.is_cpu dev); cbn [negb].
  - unfold mbind, St_bind, bind, ret, ModelInfo.on_heap, ModelInfo.on_world.
    cbn [fst snd w_heap w_log].
    destruct (ascontiguousarray (cols_to tw n) (w_heap w1)) as [h2 can].
    cbn [fst snd w_heap w_log].
    destruct (ascontiguousarray (cols_from tw n) h2) as [h3 mods]. reflexivity.
  - rewrite (bind_ok _ _ (self, w1)
               (self, {| w_heap := w_heap w1; w_log := w_log w1 ++ [EvEmptyCache] |}) tt).
    2:{ rewrite (bind_ok _ _ _ _ _ (on_self_getattr _ _ _ _ Htorch)). reflexivity. }
    unfold mbind, St_bind, bind, ret, ModelInfo.on_heap, ModelInfo.on_world.
    cbn [fst snd w_heap w_log].
    destruct (ascontiguousarray (cols_to tw n) (w_heap w1)) as [h2 can].
    cbn [fst snd w_heap w_log].
    destruct (ascontiguousarray (cols_from tw n) h2) as [h3 mods]. reflexivity.
Qed.

Lemma nd_cols_cols_to tw n :
  0 <= n <= Z.of_nat (nd_cols tw) -> nd_cols (cols_to tw n) = Z.to_nat n.
Proof.
  intros Hn. unfold cols_to, slice_cols, norm_slice_index. cbn [nd_cols].
  destruct (Z.ltb_spec 0 0); [lia|]. destruct (Z.ltb_spec n 0); lia.
Qed.

Lemma nd_cols_cols_from tw n :
  0 <= n <= Z.of_nat (nd_cols tw) ->
  nd_cols (cols_from tw n) = (nd_cols tw - Z.to_nat n)%nat.
Proof.
  intros Hn. unfold cols_from, slice_cols, norm_slice_index. cbn [nd_cols].
  destruct (Z.ltb_spec (Z.of_nat (nd_cols tw)) 0); [lia|].
  destruct (Z.ltb_spec n 0); lia.
Qed.

Lemma proper_column_slices_not_contiguous tw n :
  is_c_contiguous tw = true ->
  (2 <= nd_rows tw)%nat ->
  0 < n < Z.of_nat (nd_cols tw) ->
  is_c_contiguous (cols_to tw n) = false /\ is_c_contiguous (cols_from tw n) = false.
Proof.
  intros Hc Hrows Hn. unfold is_c_contiguous in Hc.
  destruct (Nat.eqb_spec (nd_rows tw) 0) as [|_]; [lia|].
  destruct (Nat.eqb_spec (nd_cols tw) 0) as [|_]; [lia|].
  destruct (Nat.eqb_spec (nd_rows tw) 1) as [|_]; [lia|].
  cbn [orb] in Hc. apply andb_true_iff in Hc as [_ Hrs]. apply Nat.eqb_eq in Hrs.
  unfold is_c_contiguous.
  rewrite nd_cols_cols_to, nd_cols_cols_from by lia.
  change (nd_rows (cols_to tw n)) with (nd_rows tw).
  change (nd_rows (cols_from tw n)) with (nd_rows tw).
  change (nd_rstride (cols_to tw n)) with (nd_rstride tw).
  change (nd_rstride (cols_from tw n)) with (nd_rstride tw).
  destruct (Nat.eqb_spec (nd_rows tw) 0) as [|_]; [lia|].
  destruct (Nat.eqb_spec (nd_rows tw) 1) as [|_]; [lia|].
  cbn [orb].
  split.
  - destruct (Nat.eqb_spec (Z.to_nat n) 0); [lia|].
    destruct (Nat.eqb_spec (nd_rstride tw) (Z.to_nat n)); [lia|].
    apply andb_false_r.
  - destruct (Nat.eqb_spec (nd_cols tw - Z.to_nat n) 0); [lia|].
    destruct (Nat.eqb_spec (nd_rstride tw) (nd_cols tw - Z.to_nat n)); [lia|].
    apply andb_false_r.
Qed.

Lemma tai_call_self rt raw_sig self w :
  fst (fst (ModelInfo.tai_call rt raw_sig (self, w))) = self.
Proof.
  unfold ModelInfo.tai_call, ModelInfo.on_self, ModelInfo.on_world, getattr.
  unfold mbind, St_bind, bind. cbn [fst snd].
  repeat match goal with
         | |- context [self !! ?k] => destruct (self !! k); cbn [fst snd]
         end; try reflexivity.
  destruct (tai_run_model rt raw_sig _ _ _ _ w); reflexivity.
Qed.

Lemma tai_call_result rt raw_sig self w tw :
  snd (ModelInfo.tai_call rt raw_sig (self, w)) = Ok tw ->
  ModelInfo.tai_call rt raw_sig (self, w)
  = ((self, snd (fst (ModelInfo.tai_call rt raw_sig (self, w)))), Ok tw).
Proof.
  intros H. pose proof (tai_call_self rt raw_sig self w) as Hs.
  destruct (ModelInfo.tai_call rt raw_sig (self, w)) as [[s w1] r].
  cbn [fst snd] in *. subst. reflexivity.
Qed.

(** C4 (amended). When the trained backend returns a matrix and a
    canonical-state count [n] is supplied, [run_model] returns the pair
    (columns [0, n), columns [n, end)) of that matrix (with Python's
    reading of [n]), both C-contiguous; pasting the pair together column
    by column gives the original matrix back, and the source is not
    modified.  Each part is a new buffer exactly when the column slice is
    not already contiguous, in particular both are new, different buffers
    when a contiguous source has at least two rows and [0 < n < width];
    a slice that is already contiguous is returned as it is, a view on
    the source buffer. *)
Theorem run_model_splits_columns :
  forall rt raw_sig n self w tw dev t,
    self !! "model_type" = Some (PStr TAI_NAME) ->
    snd (ModelInfo.tai_call rt raw_sig (self, w)) = Ok tw ->
    self !! "device" = Some dev ->
    self !! "torch" = Some t ->
    let w1 := snd (fst (ModelInfo.tai_call rt raw_sig (self, w))) in
    nd_valid (w_heap w1) tw ->
    exists can mods w2,
      let src := to_matrix (w_heap w1) tw in
      ModelInfo.run_model rt raw_sig (Some n) (self, w)
        = ((self, w2), Ok (Split can mods))
      /\ to_matrix (w_heap w2) can = map (fun row => slice_to row n) src
      /\ to_matrix (w_heap w2) mods = map (fun row => slice_from row n) src
      /\ (0 <= n ->
          to_matrix (w_heap w2) can = map (take (Z.to_nat n)) src
          /\ to_matrix (w_heap w2) mods = map (drop (Z.to_nat n)) src)
      /\ zip_with app (to_matrix (w_heap w2) can) (to_matrix (w_heap w2) mods) = src
      /\ to_matrix (w_heap w2) tw = src
      /\ is_c_contiguous can = true
      /\ is_c_contiguous mods = true
      /\ (if is_c_contiguous (cols_to tw n) then can = cols_to tw n
          else (length (w_heap w1) <= nd_buf can)%nat)
      /\ (if is_c_contiguous (cols_from tw n) then mods = cols_from tw n
          else (length (w_heap w1) <= nd_buf mods)%nat)
      /\ (is_c_contiguous tw = true -> (2 <= nd_rows tw)%nat ->
          0 < n < Z.of_nat (nd_cols tw) ->
          nd_buf can <> nd_buf tw /\ nd_buf mods <> nd_buf tw
          /\ nd_buf can <> nd_buf mods).
Proof.
  intros rt raw_sig n self w tw dev t Hty Hcall Hdev Htorch w1 Hvalid.
  apply (tai_call_result rt raw_sig self w tw) in Hcall. fold w1 in Hcall.
  rewrite (run_model_taiyaki_ok _ _ _ _ _ _ _ _ _ Hty Hcall Hdev Htorch).
  cbv zeta.
  assert (Hbuf : (nd_buf tw < length (w_heap w1))%nat).
  { destruct Hvalid as (b & Hb & _). eapply lookup_lt_Some, Hb. }
  assert (Hbuf_to : nd_buf (cols_to tw n) = nd_buf tw) by reflexivity.
  assert (Hbuf_from : nd_buf (cols_from tw n) = nd_buf tw) by reflexivity.
  pose proof (ascontiguousarray_spec (cols_to tw n) (w_heap w1)) as Hcan.
  destruct (ascontiguousarray (cols_to tw n) (w_heap w1)) as [h2 can].
  destruct Hcan as (Hcan_m & Hcan_c & Hcan_keep & Hcan_len & Hcan_view & Hcan_copy).
  pose proof (ascontiguousarray_spec (cols_from tw n) h2) as Hmods.
  destruct (ascontiguousarray (cols_from tw n) h2) as [h3 mods].
  destruct Hmods as (Hmods_m & Hmods_c & Hmods_keep & Hmods_len & Hmods_view & Hmods_copy).
  exists can, mods, {| w_heap := h3;
                       w_log := if ModelInfo.is_cpu dev then w_log w1
                                else w_log w1 ++ [EvEmptyCache] |}.
  cbn [w_heap].
  assert (Hcan_buf : (nd_buf can < length h2)%nat).
  { destruct (is_c_contiguous (cols_to tw n)) eqn:Hc.
    - destruct (Hcan_view eq_refl) as [-> ->]. rewrite Hbuf_to. exact Hbuf.
    - destruct (Hcan_copy eq_refl) as [-> ->]. lia. }
  assert (Hcan' : to_matrix h3 can
                  = map (fun row => slice_to row n) (to_matrix (w_heap w1) tw)).
  { rewrite Hmods_keep by exact Hcan_buf. rewrite Hcan_m. apply to_matrix_cols_to. }
  assert (Hmods' : to_matrix h3 mods
                   = map (fun row => slice_from row n) (to_matrix (w_heap w1) tw)).
  { rewrite Hmods_m, to_matrix_cols_from.
    rewrite (Hcan_keep tw Hbuf). reflexivity. }
  split; [reflexivity|]. split; [exact Hcan'|]. split; [exact Hmods'|].
  split.
  { intros Hn. rewrite Hcan', Hmods'. split; apply map_ext; intros row.
    - apply slice_to_nonneg, Hn.
    - apply slice_from_nonneg, Hn. }
  split; [rewrite Hcan', Hmods'; apply zip_with_app_split|].
  split.
  { rewrite Hmods_keep by lia. apply Hcan_keep, Hbuf. }
  split; [exact Hcan_c|]. split; [exact Hmods_c|].
  split.
  { destruct (is_c_contiguous (cols_to tw n)).
    - apply Hcan_view. reflexivity.
    - destruct (Hcan_copy eq_refl) as [-> _]. lia. }
  split.
  { destruct (is_c_contiguous (cols_from tw n)).
    - apply Hmods_view. reflexivity.
    - destruct (Hmods_copy eq_refl) as [-> _]. lia. }
  intros Hc Hrows Hn.
  destruct (proper_column_slices_not_contiguous tw n Hc Hrows Hn) as [Hto Hfrom].
  destruct (Hcan_copy Hto) as [Hb1 Hl1]. destruct (Hmods_copy Hfrom) as [Hb2 Hl2].
  lia.
Qed.

Lemma run_model_splits_columns_witness :
  let rt := Demo.returning_runtime 2 3 [1; 2; 3; 4; 5; 6] in
  let self := Demo.trained_self rt None in
  exists can mods w2,
    ModelInfo.run_model rt [] (Some 2) (self, Demo.empty_world)
      = ((self, w2), Ok (Split can mods))
    /\ to_matrix (w_heap w2) can = map (map f32_of_Z) [[1; 2]; [4; 5]]
    /\ to_matrix (w_heap w2) mods = map (map f32_of_Z) [[3]; [6]]
    /\ is_c_contiguous can = true /\ is_c_contiguous mods = true
    /\ nd_buf can <> 0%nat /\ nd_buf mods <> 0%nat /\ nd_buf can <> nd_buf mods.
Proof.
  intros rt self.
  destruct (run_model_splits_columns rt [] 2 self Demo.empty_world
              (Demo.matrix_at 0 2 3) (PTorchDevice None) (PHandle "torch"))
    as (can & mods & w2 & Hrun & Hcan & Hmods & _ & _ & _ & Hc1 & Hc2 & _ & _ & Hfresh).
  - vm_compute; reflexivity.
  - vm_compute; reflexivity.
  - vm_compute; reflexivity.
  - vm_compute; reflexivity.
  - eexists. split; [vm_compute; reflexivity|].
    intros i j Hi Hj. cbn in *. lia.
  - exists can, mods, w2. split; [exact Hrun|].
    split; [rewrite Hcan; vm_compute; reflexivity|].
    split; [rewrite Hmods; vm_compute; reflexivity|].
    split; [exact Hc1|]. split; [exact Hc2|].
    apply Hfresh; [reflexivity|cbn; lia|cbn; lia].
Defined.

(** C4, as stated, fails: a part that is already contiguous is not
    copied.  With a canonical-state count equal to the width of a 2 x 2
    matrix the canonical part is the source buffer itself; with a one-row
    matrix both parts are views on the source buffer. *)
Lemma contiguous_slices_share_the_source_buffer :
  let rt := Demo.returning_runtime 2 2 [1; 2; 3; 4] in
  let rt1 := Demo.returning_runtime 1 3 [1; 2; 3] in
  snd (ModelInfo.tai_call rt [] (Demo.trained_self rt None, Demo.empty_world))
    = Ok (Demo.matrix_at 0 2 2)
  /\ (exists can mods,
         snd (ModelInfo.run_model rt [] (Some 2)
                (Demo.trained_self rt None, Demo.empty_world))
         = Ok (Split can mods)
         /\ nd_buf can = nd_buf (Demo.matrix_at 0 2 2))
  /\ snd (ModelInfo.tai_call rt1 [] (Demo.trained_self rt1 None, Demo.empty_world))
    = Ok (Demo.matrix_at 0 1 3)
  /\ (exists can mods,
         snd (ModelInfo.run_model rt1 [] (Some 1)
                (Demo.trained_self rt1 None, Demo.empty_world))
         = Ok (Split can mods)
         /\ nd_buf can = nd_buf (Demo.matrix_at 0 1 3)
         /\ nd_buf mods = nd_buf (Demo.matrix_at 0 1 3)).
Proof.
  intros rt rt1.
  split; [vm_compute; reflexivity|].
  split; [eexists _, _; split; [vm_compute; reflexivity|reflexivity]|].
  split; [vm_compute; reflexivity|].
  eexists _, _. split; [vm_compute; reflexivity|]. split; reflexivity.
Qed.

(** ** Exact floating-point operations *)

Lemma shl_0 p : shl p 0 = p.
Proof. reflexivity. Qed.

Lemma shl_S p k : shl p (S k) = xO (shl p k).
Proof. reflexivity. Qed.

Lemma shl_S_inner p k : shl p (S k) = shl (xO p) k.
Proof. unfold shl. induction k as [|k IH]; [reflexivity|]. cbn in *. rewrite IH. reflexivity. Qed.

Lemma shl_add p j k : shl (shl p j) k = shl p (j + k).
Proof.
  induction k as [|k IH]; [rewrite Nat.add_0_r; reflexivity|].
  rewrite Nat.add_succ_r, !shl_S, IH. reflexivity.
Qed.

Lemma shl_val p k : Z.pos (shl p k) = Z.pos p * 2 ^ Z.of_nat k.
Proof.
  induction k as [|k IH]; [cbn; lia|].
  rewrite shl_S, Pos2Z.inj_xO, IH, Nat2Z.inj_succ, Z.pow_succ_r by lia. lia.
Qed.

Lemma digits2_shl p k :
  Z.pos (digits2_pos (shl p k)) = Z.pos (digits2_pos p) + Z.of_nat k.
Proof.
  induction k as [|k IH]; [cbn; lia|].
  rewrite shl_S. cbn [digits2_pos]. rewrite Pos2Z.inj_succ, IH. lia.
Qed.

Lemma pos_iter_nat {A} (f : A -> A) x p : Pos.iter f x p = Nat.iter (Pos.to_nat p) f x.
Proof. apply Pos2Nat.inj_iter. Qed.

Lemma iter_pos_nat {A} (f : A -> A) p x : SpecFloat.iter_pos f p x = Nat.iter (Pos.to_nat p) f x.
Proof.
  revert x. induction p as [p IH|p IH|]; intros x; cbn [SpecFloat.iter_pos].
  - rewrite !IH, Pos2Nat.inj_xI. 
    replace (S (2 * Pos.to_nat p))%nat with (Pos.to_nat p + (Pos.to_nat p + 1))%nat by lia.
    rewrite !Nat.iter_add. reflexivity.
  - rewrite !IH, Pos2Nat.inj_xO.
    replace (2 * Pos.to_nat p)%nat with (Pos.to_nat p + Pos.to_nat p)%nat by lia.
    rewrite Nat.iter_add. reflexivity.
  - reflexivity.
Qed.

Lemma shr_1_shl p k :
  Nat.iter k shr_1 {| shr_m := Z.pos (shl p k); shr_r := false; shr_s := false |}
  = {| shr_m := Z.pos p; shr_r := false; shr_s := false |}.
Proof.
  induction k as [|k IH]; [reflexivity|].
  rewrite Nat.iter_succ_r, shl_S. cbn [shr_1 orb]. exact IH.
Qed.

Section Exact.
Variables prec emax : Z.
Hypothesis prec_pos : 0 < prec.


Lemma shr_shl P E k :
  shr {| shr_m := Z.pos (shl P k); shr_r := false; shr_s := false |} E (Z.of_nat k)
  = ({| shr_m := Z.pos P; shr_r := false; shr_s := false |}, E + Z.of_nat k).
Proof.
  destruct k as [|k].
  - cbn. rewrite Z.add_0_r. reflexivity.
  - unfold shr. change (Z.of_nat (S k)) with (Z.pos (Pos.of_succ_nat k)).
    cbv iota beta. rewrite iter_pos_nat, SuccNat2Pos.id_succ, shr_1_shl.
    reflexivity.
Qed.

(** Rounding a mantissa whose low bits are zero down to a canonical one
    is exact. *)
Lemma binary_round_aux_exact s P e' k E :
  canonical_mantissa prec emax P e' = true ->
  e' <= emax - prec ->
  E + Z.of_nat k = e' ->
  binary_round_aux prec emax s (Z.pos (shl P k)) E loc_Exact = S754_finite s P e'.
Proof.
  intros Hcan Hmax HE. unfold canonical_mantissa in Hcan. apply Z.eqb_eq in Hcan.
  unfold binary_round_aux, shr_fexp. cbn [Zdigits2 shr_record_of_loc].
  rewrite digits2_shl.
  replace (Z.pos (digits2_pos P) + Z.of_nat k + E) with (Z.pos (digits2_pos P) + e') by lia.
  rewrite Hcan. replace (e' - E) with (Z.of_nat k) by lia.
  rewrite shr_shl. cbn [shr_m loc_of_shr_record round_nearest_even Zdigits2 shr_record_of_loc].
  replace (E + Z.of_nat k) with e' by lia.
  rewrite Hcan, Z.sub_diag. cbn [shr shr_m].
  destruct (Z.leb_spec e' (emax - prec)); [reflexivity|lia].
Qed.

Lemma shl_align_le mx ex ex' :
  ex' <= ex ->
  shl_align mx ex ex' = (shl mx (Z.to_nat (ex - ex')), ex - Z.of_nat (Z.to_nat (ex - ex'))).
Proof.
  intros H. unfold shl_align. destruct (ex' - ex) as [|d|d] eqn:Hd; try lia.
  - replace (ex - ex') with 0 by lia. cbn. rewrite Z.sub_0_r. reflexivity.
  - rewrite pos_iter_nat. replace (ex - ex') with (Z.pos d) by lia.
    cbn [Z.to_nat]. unfold shl. f_equal. lia.
Qed.

Lemma shl_align_ge mx ex ex' : ex <= ex' -> shl_align mx ex ex' = (mx, ex).
Proof.
  intros H. unfold shl_align. destruct (ex' - ex) as [|d|d] eqn:Hd; try lia; reflexivity.
Qed.

(** [binary_round] is exact on a value that has a canonical
    representation, whichever way the mantissa must be shifted. *)
Lemma binary_round_exact_r s P e' k E :
  canonical_mantissa prec emax P e' = true -> e' <= emax - prec -> E + Z.of_nat k = e' ->
  binary_round prec emax s (shl P k) E = S754_finite s P e'.
Proof.
  intros Hcan Hmax HE. unfold binary_round.
  assert (Hf : SpecFloat.fexp prec emax (Z.pos (digits2_pos (shl P k)) + E) = e').
  { rewrite digits2_shl. unfold canonical_mantissa in Hcan. apply Z.eqb_eq in Hcan.
    etransitivity; [|exact Hcan]. f_equal. lia. }
  rewrite Hf, shl_align_ge by lia.
  apply binary_round_aux_exact; assumption.
Qed.

Lemma binary_round_exact_l s M E k e' :
  canonical_mantissa prec emax (shl M k) e' = true -> e' <= emax - prec -> e' + Z.of_nat k = E ->
  binary_round prec emax s M E = S754_finite s (shl M k) e'.
Proof.
  intros Hcan Hmax HE. unfold binary_round.
  assert (Hf : SpecFloat.fexp prec emax (Z.pos (digits2_pos M) + E) = e').
  { pose proof Hcan as Hcan'. unfold canonical_mantissa in Hcan'. apply Z.eqb_eq in Hcan'.
    rewrite digits2_shl in Hcan'. etransitivity; [|exact Hcan']. f_equal. lia. }
  rewrite Hf, shl_align_le by lia.
  replace (Z.to_nat (E - e')) with k by lia.
  replace (E - Z.of_nat k) with e' by lia.
  apply (binary_round_aux_exact s (shl M k) e' 0 e'); [assumption|assumption|lia].
Qed.

Lemma dig_pos p : Z.of_nat (dig p) = Z.pos (digits2_pos p).
Proof. unfold dig. apply positive_nat_Z. Qed.

Lemma dig_shl p k : dig (shl p k) = (dig p + k)%nat.
Proof. apply Nat2Z.inj. rewrite Nat2Z.inj_add, !dig_pos. apply digits2_shl. Qed.

Lemma nf_canonical p e :
  fits prec emax p e -> canonical_mantissa prec emax (shl p (lead prec p)) (e - Z.of_nat (lead prec p)) = true.
Proof.
  intros [Hd [Hlo Hhi]]. unfold canonical_mantissa. apply Z.eqb_eq.
  rewrite digits2_shl, <- dig_pos. unfold lead in *. unfold SpecFloat.fexp. lia.
Qed.

Lemma binary_round_nf s p e : fits prec emax p e -> binary_round prec emax s p e = nf prec s p e.
Proof.
  intros Hfit. unfold nf.
  apply binary_round_exact_l; [apply nf_canonical, Hfit|apply Hfit|lia].
Qed.

Lemma nf_shl s p k e :
  (dig (shl p k) <= Z.to_nat prec)%nat -> nf prec s (shl p k) e = nf prec s p (e + Z.of_nat k).
Proof.
  intros Hd. rewrite dig_shl in Hd. unfold nf, lead. rewrite dig_shl, shl_add.
  f_equal; [f_equal|]; lia.
Qed.

Lemma fits_shl p k e :
  (dig (shl p k) <= Z.to_nat prec)%nat -> fits prec emax (shl p k) e <-> fits prec emax p (e + Z.of_nat k).
Proof.
  intros Hd. pose proof Hd as Hd'. rewrite dig_shl in Hd'.
  unfold fits, lead. rewrite dig_shl. split; intros [H1 H2]; split; lia.
Qed.


Lemma digits2_size p : digits2_pos p = Pos.size p.
Proof. induction p as [p IH|p IH|]; cbn; congruence. Qed.

Lemma dig_bounds p : 2 ^ (Z.of_nat (dig p) - 1) <= Z.pos p < 2 ^ Z.of_nat (dig p).
Proof.
  rewrite dig_pos, digits2_size.
  pose proof (Pos.size_gt p) as Hgt. pose proof (Pos.size_le p) as Hle.
  apply Pos2Z.pos_lt_pos in Hgt. apply Pos2Z.pos_le_pos in Hle.
  rewrite Pos2Z.inj_pow in Hgt, Hle.
  change (Z.pos p~0) with (2 * Z.pos p) in Hle.
  split; [|exact Hgt].
  replace (2 ^ Z.pos (Pos.size p)) with (2 * 2 ^ (Z.pos (Pos.size p) - 1)) in Hle.
  - lia.
  - rewrite <- Z.pow_succ_r by lia. f_equal. lia.
Qed.

Lemma dig_le_iff p k : (dig p <= k)%nat <-> Z.pos p < 2 ^ Z.of_nat k.
Proof.
  pose proof (dig_bounds p) as [Hlo Hhi]. split; intros H.
  - eapply Z.lt_le_trans; [exact Hhi|]. apply Z.pow_le_mono_r; lia.
  - destruct (Nat.le_gt_cases (dig p) k) as [|Hgt]; [assumption|exfalso].
    assert (2 ^ Z.of_nat k <= 2 ^ (Z.of_nat (dig p) - 1)) by (apply Z.pow_le_mono_r; lia).
    lia.
Qed.

Lemma dig_mono p q : (p <= q)%positive -> (dig p <= dig q)%nat.
Proof.
  intros H. apply dig_le_iff. pose proof (dig_bounds q). lia.
Qed.

Lemma shl_mul_one k m : (shl 1 k * m)%positive = shl m k.
Proof.
  apply Pos2Z.inj. rewrite Pos2Z.inj_mul, !shl_val. lia.
Qed.


Lemma shl_minus p q k : (q < p)%positive -> (shl p k - shl q k)%positive = shl (p - q) k.
Proof.
  intros H. apply Pos2Z.inj.
  assert (Hlt : (shl q k < shl p k)%positive).
  { change (Z.pos (shl q k) < Z.pos (shl p k)). rewrite !shl_val.
    apply Z.mul_lt_mono_pos_r; [apply Z.pow_pos_nonneg; lia|lia]. }
  rewrite Pos2Z.inj_sub by exact Hlt. rewrite !shl_val, Pos2Z.inj_sub by exact H. lia.
Qed.

(** *** Exact operations on canonical forms *)

Lemma SFmul_pow2 s p e j :
  fits prec emax 1 j -> fits prec emax p e -> fits prec emax p (e + j) ->
  SFmul prec emax (nf prec false 1 j) (nf prec s p e) = nf prec s p (e + j).
Proof.
  intros H1 Hp Hpj. unfold nf at 1 2. cbn [SFmul xorb].
  rewrite shl_mul_one.
  replace (match s with true => true | false => false end) with s by (destruct s; reflexivity).
  apply binary_round_aux_exact.
  - apply nf_canonical, Hpj.
  - apply Hpj.
  - lia.
Qed.

Lemma aligned_mantissa p e (K : nat) :
  (lead prec p <= K)%nat ->
  fst (shl_align (shl p (lead prec p)) (e - Z.of_nat (lead prec p)) (e - Z.of_nat K)) = shl p K.
Proof.
  intros H. rewrite shl_align_le by lia. cbn [fst]. rewrite shl_add. f_equal. lia.
Qed.

Lemma round_aligned s r e (K : nat) :
  fits prec emax r e ->
  binary_round prec emax s (shl r K) (e - Z.of_nat K) = nf prec s r e.
Proof.
  intros Hr. unfold nf.
  destruct (Nat.le_gt_cases (lead prec r) K) as [HK|HK].
  - replace (shl r K) with (shl (shl r (lead prec r)) (K - lead prec r))
      by (rewrite shl_add; f_equal; lia).
    apply binary_round_exact_r; [apply nf_canonical, Hr|apply Hr|lia].
  - replace (shl r (lead prec r)) with (shl (shl r K) (lead prec r - K))
      by (rewrite shl_add; f_equal; lia).
    apply binary_round_exact_l; [|apply Hr|lia].
    rewrite shl_add. replace (K + (lead prec r - K))%nat with (lead prec r) by lia.
    apply nf_canonical, Hr.
Qed.








End Exact.

Section Halving.
Variables prec emax : Z.
Hypothesis prec_pos : 0 < prec.








End Halving.

(** ** nstate_to_nbase on flip-flop state counts *)

Lemma fits64 p e : Z.pos p < 2 ^ 53 -> -1000 <= e <= 900 -> fits 53 1024 p e.
Proof.
  intros Hp He.
  assert (Hd : (dig p <= 53)%nat) by (apply dig_le_iff; exact Hp).
  unfold fits, lead. change (emin 53 1024) with (-1074). change (Z.to_nat 53) with 53%nat.
  lia.
Qed.

Lemma f64_lit_nf p e : fits 53 1024 p e -> f64_lit (Z.pos p) e = nf 53 false p e.
Proof. intros H. unfold f64_lit. cbn [binary_normalize]. apply binary_round_nf; [lia|exact H]. Qed.







(** ** med_mad on constant signals *)












(* ================================================================== *)
(** * Further properties of the two modules *)
(* ================================================================== *)

(** ** revcomp *)

Lemma translate_COMP_BASES_char c :
  match mh.COMP_BASES !! ord c with Some n => chr_of n | None => c end = complement c.
Proof. destruct c as [[] [] [] [] [] [] [] []]; vm_compute; reflexivity. Qed.

Lemma complement_involutive c : complement (complement c) = c.
Proof. destruct c as [[] [] [] [] [] [] [] []]; reflexivity. Qed.

Lemma revcomp_chars s :
  list_ascii_of_string (mh.revcomp s) = rev (map complement (list_ascii_of_string s)).
Proof.
  unfold mh.revcomp, reversed, translate.
  rewrite !list_ascii_of_string_of_list_ascii. f_equal.
  apply map_ext. intros c. apply translate_COMP_BASES_char.
Qed.

Lemma string_eq_chars s t :
  list_ascii_of_string s = list_ascii_of_string t -> s = t.
Proof.
  intros H. rewrite <- (string_of_list_ascii_of_string s), H.
  apply string_of_list_ascii_of_string.
Qed.

Lemma list_ascii_of_string_app s t :
  list_ascii_of_string (s ++ t)%string = list_ascii_of_string s ++ list_ascii_of_string t.
Proof.
  induction s as [|c s IH]; [reflexivity|].
  change (c :: list_ascii_of_string (s ++ t)%string
          = c :: (list_ascii_of_string s ++ list_ascii_of_string t)).
  f_equal. exact IH.
Qed.

Lemma string_length_chars s : String.length s = length (list_ascii_of_string s).
Proof. induction s as [|c s IH]; cbn; [reflexivity|]. rewrite IH. reflexivity. Qed.

Lemma get_chars i s : String.get i s = nth_error (list_ascii_of_string s) i.
Proof.
  revert i. induction s as [|c s IH]; intros [|i]; cbn; try reflexivity. apply IH.
Qed.

(** X1. [revcomp] is an involution: the reverse complement of the reverse
    complement of a sequence is the sequence, whatever characters it
    holds. *)
Theorem revcomp_involutive : forall seq, mh.revcomp (mh.revcomp seq) = seq.
Proof.
  intros seq. apply string_eq_chars. rewrite !revcomp_chars.
  rewrite map_rev, rev_involutive, map_map.
  rewrite <- (map_id (list_ascii_of_string seq)) at 2.
  apply map_ext. intros c. apply complement_involutive.
Qed.

(** X2. The reverse complement of a concatenation is the concatenation
    of the reverse complements, in the opposite order. *)
Theorem revcomp_app :
  forall s t, mh.revcomp (s ++ t)%string = (mh.revcomp t ++ mh.revcomp s)%string.
Proof.
  intros s t. apply string_eq_chars.
  rewrite !revcomp_chars, !list_ascii_of_string_app, !revcomp_chars.
  rewrite map_app, rev_app_distr. reflexivity.
Qed.

(** X3. [revcomp] keeps the length, and the character at position [i] of
    the result is the complement of the character at position
    [len - 1 - i] of the argument: A and T are exchanged, C and G are
    exchanged, and every other character (lower-case bases, N, gaps) is
    left as it is. *)
Theorem revcomp_pointwise :
  forall seq,
    String.length (mh.revcomp seq) = String.length seq
    /\ forall i, (i < String.length seq)%nat ->
         String.get i (mh.revcomp seq)
         = option_map complement (String.get (String.length seq - 1 - i) seq).
Proof.
  intros seq.
  assert (Hlen : String.length (mh.revcomp seq) = String.length seq).
  { rewrite !string_length_chars, revcomp_chars, length_rev, length_map. reflexivity. }
  split; [exact Hlen|]. intros i Hi.
  rewrite !get_chars, revcomp_chars.
  rewrite string_length_chars in Hi |- *.
  rewrite nth_error_rev by (rewrite length_map; exact Hi).
  rewrite length_map, nth_error_map.
  replace (length (list_ascii_of_string seq) - 1 - i)%nat
    with (length (list_ascii_of_string seq) - S i)%nat by lia.
  destruct (Nat.ltb_spec i (length (list_ascii_of_string seq))); [reflexivity|lia].
Qed.

Lemma revcomp_pointwise_witness :
  String.get 0 (mh.revcomp "AACGTn") = Some "n"%char
  /\ String.get 1 (mh.revcomp "AACGTn") = Some "A"%char.
Proof.
  destruct (revcomp_pointwise "AACGTn") as [_ H].
  split.
  - rewrite (H 0%nat) by (cbn; lia). reflexivity.
  - rewrite (H 1%nat) by (cbn; lia). reflexivity.
Defined.

(** ** extract_read_data: failures, the file handle, multi-read files *)

(** X4. [extract_read_data] fails with a [MegaError] and with nothing
    else: "Error opening read file" when the file cannot be opened, "Raw
    signal not found in /Raw/Reads slot" when the group is missing or
    holds no read, "Raw signal not found in Signal dataset" when the first
    read has no numeric [Signal]; and it succeeds in every other case. *)
Theorem extract_read_data_failures :
  forall fs fn scale,
    let r := snd (mh.extract_read_data fs fn scale) in
    (fs fn = None -> r = Raise (Exn MegaError "Error opening read file"))
    /\ (forall f, fs fn = Some f ->
          mh.Raw_Reads f = None \/ mh.Raw_Reads f = Some [] ->
          r = Raise (Exn MegaError "Raw signal not found in /Raw/Reads slot"))
    /\ (forall f slot rest, fs fn = Some f ->
          mh.Raw_Reads f = Some (slot :: rest) ->
          mh.Signal slot = None \/ mh.Signal slot = Some mh.NotNumeric ->
          r = Raise (Exn MegaError "Raw signal not found in Signal dataset"))
    /\ (forall f slot rest, fs fn = Some f ->
          mh.Raw_Reads f = Some (slot :: rest) ->
          ((exists l, mh.Signal slot = Some (mh.IntData l))
           \/ (exists l, mh.Signal slot = Some (mh.Float32Data l))) ->
          is_Ok r = true)
    /\ (forall e, r = Raise e -> exn_cls e = MegaError).
Proof.
  intros fs fn scale r. subst r. unfold mh.extract_read_data.
  split; [intros ->; reflexivity|].
  split.
  { intros f -> [H|H]; unfold mh.first_raw_slot; rewrite H; reflexivity. }
  split.
  { intros f slot rest -> Hr [H|H]; unfold mh.first_raw_slot, mh.read_signal;
      rewrite Hr, H; reflexivity. }
  split.
  { intros f slot rest -> Hr [[l H]|[l H]]; unfold mh.first_raw_slot, mh.read_signal;
      rewrite Hr, H; destruct scale; try reflexivity;
      match goal with |- context [mh.med_mad ?s None] => destruct (mh.med_mad s None) end;
      reflexivity. }
  intros e.
  destruct (fs fn) as [f|]; [|intros [= <-]; reflexivity].
  destruct (mh.first_raw_slot f) as [slot|]; [|intros [= <-]; reflexivity].
  destruct (mh.read_signal slot) as [sig|]; [|intros [= <-]; reflexivity].
  destruct scale; [destruct (mh.med_mad sig None)|]; discriminate.
Qed.

Lemma extract_read_data_failures_witness :
  let fs := Demo.one_read {| mh.Signal := None; mh.attrs := ∅ |} in
  snd (mh.extract_read_data fs "other.fast5" true)
    = Raise (Exn MegaError "Error opening read file")
  /\ snd (mh.extract_read_data fs "read.fast5" true)
    = Raise (Exn MegaError "Raw signal not found in Signal dataset").
Proof.
  intros fs. split.
  - apply (proj1 (extract_read_data_failures fs "other.fast5" true)). reflexivity.
  - apply (proj1 (proj2 (proj2 (extract_read_data_failures fs "read.fast5" true)))
             {| mh.Raw_Reads := Some [ {| mh.Signal := None; mh.attrs := ∅ |} ] |}
             {| mh.Signal := None; mh.attrs := ∅ |} []);
      [reflexivity|reflexivity|left; reflexivity].
Defined.

(** X5. The file handle: when the file cannot be opened nothing is
    opened or closed; otherwise the file is opened once and closed once,
    on the successful path and on both failing paths alike, and no other
    file is touched. *)
Theorem extract_read_data_closes_the_file :
  forall fs fn scale,
    fst (mh.extract_read_data fs fn scale)
    = match fs fn with
      | None => []
      | Some _ => [mh.FileOpen fn; mh.FileClose fn]
      end.
Proof.
  intros fs fn scale. unfold mh.extract_read_data.
  destruct (fs fn) as [f|]; [|reflexivity].
  destruct (mh.first_raw_slot f) as [slot|]; [|reflexivity].
  destruct (mh.read_signal slot) as [sig|]; [|reflexivity].
  destruct scale; [destruct (mh.med_mad sig None)|]; reflexivity.
Qed.

(** X6. Only the first read of the container is used: the reads after
    it change neither the result nor the failure. *)
Theorem extract_read_data_first_read_only :
  forall fs fn scale f slot rest,
    fs fn = Some f ->
    mh.Raw_Reads f = Some (slot :: rest) ->
    mh.extract_read_data fs fn scale
    = mh.extract_read_data (fun _ => Some {| mh.Raw_Reads := Some [slot] |}) fn scale.
Proof.
  intros fs fn scale f slot rest Hf Hr. unfold mh.extract_read_data.
  rewrite Hf. unfold mh.first_raw_slot. rewrite Hr. reflexivity.
Qed.

Lemma extract_read_data_first_read_only_witness :
  let a := Demo.read_slot None [1; 2; 3] in
  let b := Demo.read_slot None [7; 8; 9; 10] in
  mh.extract_read_data (fun _ => Some {| mh.Raw_Reads := Some [a; b] |}) "reads.fast5" false
  = mh.extract_read_data (fun _ => Some {| mh.Raw_Reads := Some [a] |}) "reads.fast5" false.
Proof.
  intros a b.
  apply (extract_read_data_first_read_only _ "reads.fast5" false
           {| mh.Raw_Reads := Some [a; b] |} a [b]); reflexivity.
Defined.

(** ** med_mad: missing values *)

Lemma median_nan a : a = [] \/ existsb is_nan a = true -> median a = f32_nan.
Proof.
  intros [->|H]; [reflexivity|]. unfold median. rewrite H.
  destruct (length a =? 0)%nat; reflexivity.
Qed.

Lemma f32_sub_nan x : f32_sub x S754_nan = S754_nan.
Proof. destruct x as [| | |[]]; reflexivity. Qed.

Lemma f32_mul_nan x : f32_mul x S754_nan = S754_nan.
Proof. destruct x as [| | |[]]; reflexivity. Qed.

Lemma existsb_is_nan_all a :
  a <> [] -> existsb is_nan (map (fun _ : float32 => S754_nan) a) = true.
Proof. destruct a; [congruence|reflexivity]. Qed.

(** X7. Missing values spread: for data that is empty or holds a NaN,
    [med_mad] returns NaN for the median and for the MAD, whatever the
    factor, without raising; and [extract_read_data] with scaling then
    returns a signal of the same length made of NaN only. *)
Theorem med_mad_nan :
  forall data factor,
    data = [] \/ existsb is_nan data = true ->
    mh.med_mad data factor = (f32_nan, f32_nan)
    /\ forall fs fn f slot,
         fs fn = Some f ->
         mh.first_raw_slot f = Ok slot ->
         mh.read_signal slot = Ok data ->
         snd (mh.extract_read_data fs fn true)
         = Ok (replicate (length data) f32_nan, mh.read_id_of slot).
Proof.
  intros data factor Hdata.
  assert (Hmm : forall factor, mh.med_mad data factor = (f32_nan, f32_nan)).
  { intros fc. unfold mh.med_mad. rewrite (median_nan data Hdata).
    rewrite (map_ext _ (fun _ => S754_nan)) by (intros x; unfold f32_nan; rewrite f32_sub_nan; reflexivity).
    rewrite median_nan.
    - unfold f32_nan. rewrite f32_mul_nan. reflexivity.
    - destruct data as [|x data]; [left; reflexivity|right; reflexivity]. }
  split; [apply Hmm|].
  intros fs fn f slot Hf Hslot Hsig.
  rewrite (extract_read_data_ok _ _ _ _ _ _ Hf Hslot Hsig), Hmm. cbn [fst snd].
  f_equal. f_equal.
  rewrite (map_ext _ (fun _ => f32_nan)).
  - clear. induction data as [|x data IH]; cbn; [reflexivity|]. rewrite IH. reflexivity.
  - intros x. unfold f32_nan. rewrite f32_sub_nan. reflexivity.
Qed.

Lemma med_mad_nan_witness :
  mh.med_mad [f32_of_Z 3; S754_nan; f32_of_Z 5] None = (f32_nan, f32_nan)
  /\ mh.med_mad [] (Some (f64_lit 1 0)) = (f32_nan, f32_nan).
Proof.
  split.
  - apply (med_mad_nan [f32_of_Z 3; S754_nan; f32_of_Z 5] None). right. reflexivity.
  - apply (med_mad_nan [] (Some (f64_lit 1 0))). left. reflexivity.
Defined.

(** ** Construction on the compiled backend *)

Lemma eqb_false_of_ne (a b : string) : a <> b -> String.eqb a b = false.
Proof. intros H. apply String.eqb_neq, H. Qed.

(** X8. For every model name other than "r941_5mC" and "r941_cat_mod",
    construction on the compiled backend succeeds (when [flappy] can be
    imported) and ignores the trained-model file, the devices and the
    chunk arguments: the object is a plain four-base model ([can_alphabet]
    "ACGT", [output_size] 40, [n_mods] 0, no modification names) with one
    CPU slot ([None]) per process, none for a process count of zero or
    less; [output_alphabet] is not assigned on this path. *)
Theorem flappie_plain_construction :
  forall rt name tai_fn devices num_proc cs co mcc,
    flappy_importable rt = true ->
    name <> "r941_5mC" ->
    name <> "r941_cat_mod" ->
    let r := ModelInfo.__init__ rt (Some name) tai_fn devices num_proc cs co mcc ∅ in
    snd r = Ok tt
    /\ fst r !! "model_type" = Some (PStr "flappie")
    /\ fst r !! "name" = Some (PStr name)
    /\ fst r !! "is_cat_mod" = Some (PBool false)
    /\ fst r !! "can_alphabet" = Some (PStr "ACGT")
    /\ fst r !! "mod_long_names" = Some (PList [])
    /\ fst r !! "output_size" = Some (PInt 40)
    /\ fst r !! "n_mods" = Some (PInt 0)
    /\ fst r !! "process_devices"
       = Some (PList (replicate (Z.to_nat num_proc) PNone))
    /\ fst r !! "output_alphabet" = None.
Proof.
  intros rt name tai_fn devices num_proc cs co mcc Himp H5 Hcat r. subst r.
  unfold ModelInfo.__init__, ModelInfo.init_flappie, ModelInfo.init_flappie_plain.
  rewrite Himp, (eqb_false_of_ne _ _ H5), (eqb_false_of_ne _ _ Hcat).
  run_M. cbn [fst snd].
  repeat split; lookup_step; reflexivity.
Qed.

Lemma flappie_plain_construction_witness :
  let r := ModelInfo.__init__ Demo.cat_mod_runtime (Some "r941_native")
             (Some "model.checkpoint") (Some [0; 1]) 3 None None None ∅ in
  snd r = Ok tt
  /\ fst r !! "output_size" = Some (PInt 40)
  /\ fst r !! "process_devices" = Some (PList [PNone; PNone; PNone])
  /\ fst r !! "output_alphabet" = None.
Proof.
  intros r.
  destruct (flappie_plain_construction Demo.cat_mod_runtime "r941_native"
              (Some "model.checkpoint") (Some [0; 1]) 3 None None None)
    as (H1 & _ & _ & _ & _ & _ & H2 & _ & H3 & H4);
    [reflexivity|discriminate|discriminate|].
  repeat split; assumption.
Defined.

(** X9. On the compiled backend the import comes first and the naive
    modified-base model is refused: without [flappy] construction raises
    [ImportError] for every name, and with it the name "r941_5mC" raises
    [NotImplementedError]; in both cases [model_type] and [name] have
    been assigned and [process_devices] has not. *)
Theorem flappie_construction_failures :
  forall rt name tai_fn devices num_proc cs co mcc,
    let r := ModelInfo.__init__ rt (Some name) tai_fn devices num_proc cs co mcc ∅ in
    (flappy_importable rt = false ->
       snd r = Raise (Exn ImportError "flappy")
       /\ fst r = <["name" := PStr name]> {["model_type" := PStr "flappie"]})
    /\ (flappy_importable rt = true -> name = "r941_5mC" ->
          snd r = Raise (Exn NotImplementedError ModelInfo.unsupported_msg)
          /\ fst r !! "model_type" = Some (PStr "flappie")
          /\ fst r !! "name" = Some (PStr name)
          /\ fst r !! "process_devices" = None).
Proof.
  intros rt name tai_fn devices num_proc cs co mcc r. subst r.
  unfold ModelInfo.__init__, ModelInfo.init_flappie.
  split.
  - intros ->. run_M. cbn [fst snd]. split; reflexivity.
  - intros -> ->. run_M. cbn [fst snd].
    repeat split; lookup_step; reflexivity.
Qed.

Lemma flappie_construction_failures_witness :
  snd (ModelInfo.__init__ Demo.cat_mod_runtime (Some "r941_5mC") None None 1
         None None None ∅)
  = Raise (Exn NotImplementedError ModelInfo.unsupported_msg).
Proof.
  apply (proj2 (flappie_construction_failures Demo.cat_mod_runtime "r941_5mC"
                  None None 1 None None None));
    reflexivity.
Defined.

(** ** The compiled cat_mod model cannot be constructed *)

Lemma raises_without_bind k {A B} (m : M A) (f : A -> M B) :
  preserves k m -> (forall a, raises_without k (f a)) -> raises_without k (m ≫= f).
Proof.
  intros Hm Hf s Hs. unfold mbind, St_bind, bind.
  specialize (Hm s). destruct (m s) as [s' [a|e]]; cbn [fst snd] in *.
  - apply Hf. rewrite Hm. exact Hs.
  - split; [reflexivity|]. rewrite Hm. exact Hs.
Qed.

Lemma raises_without_getattr_dict k {B} (f : gmap string pyval -> M B) :
  raises_without k (getattr_dict k ≫= f).
Proof.
  intros s Hs. unfold getattr_dict, mbind, St_bind, bind, getattr.
  rewrite Hs. split; [reflexivity|exact Hs].
Qed.

Lemma flappie_group_loop_preserves k can_bases bases curr :
  k <> "can_base_mod" ->
  preserves k (ModelInfo.flappie_group_loop can_bases bases curr).
Proof.
  intros Hk. revert curr.
  induction bases as [|base rest IH]; intros curr;
    cbn [ModelInfo.flappie_group_loop].
  - apply preserves_ret.
  - unfold getattr_dict, type_error.
    repeat first [ apply IH
                 | apply preserves_setattr; congruence
                 | preserves_step ].
Qed.

Lemma init_flappie_cat_mod_raises rt :
  raises_without "can_base_mods" (ModelInfo.init_flappie_cat_mod rt).
Proof.
  unfold ModelInfo.init_flappie_cat_mod.
  repeat first
    [ apply raises_without_getattr_dict
    | apply raises_without_bind;
        [ unfold getattr_int, getattr_arr, getattr_str, getattr_dict, type_error;
          repeat first [ apply flappie_group_loop_preserves; discriminate
                       | preserves_step ]
        | intros ? ]
    | match goal with
      | |- raises_without _ (match ?x with _ => _ end) => destruct x
      | |- raises_without _ (let '(_, _) := ?x in _) => destruct x
      end ].
Qed.

Lemma init_flappie_cat_mod_preserves rt k :
  k <> "is_cat_mod" -> k <> "output_alphabet" -> k <> "can_nmods" ->
  k <> "n_mods" -> k <> "output_size" -> k <> "can_indices" ->
  k <> "can_alphabet" -> k <> "mod_long_names" -> k <> "can_base_mod" ->
  k <> "can_base_mods" ->
  preserves k (ModelInfo.init_flappie_cat_mod rt).
Proof.
  intros. unfold ModelInfo.init_flappie_cat_mod.
  unfold getattr_int, getattr_arr, getattr_str, getattr_dict, type_error.
  repeat first [ apply flappie_group_loop_preserves; assumption
               | apply preserves_setattr; congruence
               | preserves_step ].
Qed.

(** X10. The compiled cat_mod model cannot be constructed: for the name
    "r941_cat_mod" the constructor never returns, whatever the compiled
    runtime declares and whatever the other arguments are.  Nothing
    before the last statement of the branch assigns [can_base_mods], which
    that statement reads; [process_devices] is never assigned. *)
Theorem flappie_cat_mod_never_constructs :
  forall rt tai_fn devices num_proc cs co mcc,
    let r := ModelInfo.__init__ rt (Some "r941_cat_mod") tai_fn devices num_proc
               cs co mcc ∅ in
    is_Ok (snd r) = false
    /\ fst r !! "can_base_mods" = None
    /\ fst r !! "process_devices" = None.
Proof.
  intros rt tai_fn devices num_proc cs co mcc r. subst r.
  unfold ModelInfo.__init__, ModelInfo.init_flappie.
  change (String.eqb "r941_cat_mod" "r941_5mC") with false.
  change (String.eqb "r941_cat_mod" "r941_cat_mod") with true.
  cbv iota.
  destruct (flappy_importable rt); run_M; [|repeat split].
  set (s0 := <["flappy" := _]> _).
  assert (Hnone : s0 !! "can_base_mods" = None) by (unfold s0; lookup_step; reflexivity).
  destruct (init_flappie_cat_mod_raises rt s0 Hnone) as [Hraise Hself].
  pose proof (init_flappie_cat_mod_preserves rt "process_devices" ltac:(discriminate)
                ltac:(discriminate) ltac:(discriminate) ltac:(discriminate)
                ltac:(discriminate) ltac:(discriminate) ltac:(discriminate)
                ltac:(discriminate) ltac:(discriminate) ltac:(discriminate) s0) as Hpd.
  destruct (ModelInfo.init_flappie_cat_mod rt s0) as [s' [[]|e]]; cbn [fst snd] in *;
    [discriminate|].
  split; [reflexivity|]. split; [exact Hself|]. rewrite Hpd. reflexivity.
Qed.

(** ** Construction on the trained backend: the device list and the
       process count *)

(** X11. On the trained backend the device list is needed before any
    model is loaded: with [devices=None] (the default) construction raises
    [TypeError], with an empty list [ZeroDivisionError], whatever the
    runtime and also when the model file could not be loaded; the chunk
    arguments and [devices] have been stored, [process_devices] has
    not. *)
Theorem trained_construction_needs_devices :
  forall rt fn num_proc cs co mcc,
    let init devices :=
      ModelInfo.__init__ rt None (Some fn) devices num_proc
        (Some cs) (Some co) (Some mcc) ∅ in
    snd (init None)
      = Raise (Exn TypeError "object of type 'NoneType' has no len()")
    /\ snd (init (Some [])) = Raise (Exn ZeroDivisionError "division by zero")
    /\ fst (init None) !! "devices" = Some PNone
    /\ fst (init (Some [])) !! "devices" = Some (PList [])
    /\ fst (init None) !! "chunk_size" = Some (PInt cs)
    /\ fst (init None) !! "process_devices" = None
    /\ fst (init (Some [])) !! "process_devices" = None.
Proof.
  intros rt fn num_proc cs co mcc init. subst init. cbv beta.
  unfold ModelInfo.__init__, ModelInfo.init_taiyaki.
  rewrite !bool_decide_eq_false_2 by discriminate.
  run_M. cbn [fst snd]. repeat split; lookup_step; reflexivity.
Qed.







(** ** run_model: what is passed on *)

Lemma catch_declined {S A} (m : St S A) h s s' e :
  m s = (s', Raise e) -> h e = None -> catch m h s = (s', Raise e).
Proof. intros H Hh. unfold catch. rewrite H, Hh. reflexivity. Qed.

(** X14. Only [AttributeError] and [RuntimeError] (with their
    subclasses) are translated: on the trained backend an exception of
    the chunked-inference call of any other class leaves [run_model]
    unchanged, class and message, and the CUDA cache is not emptied. *)
Theorem run_model_passes_other_exceptions :
  forall rt raw_sig n_can_state self w s' e,
    self !! "model_type" = Some (PStr TAI_NAME) ->
    ModelInfo.tai_call rt raw_sig (self, w) = (s', Raise e) ->
    issubclass (exn_cls e) AttributeError = false ->
    issubclass (exn_cls e) RuntimeError = false ->
    ModelInfo.run_model rt raw_sig n_can_state (self, w) = (s', Raise e).
Proof.
  intros rt raw_sig n self w s' e Hty Hcall Ha Hr. unfold ModelInfo.run_model.
  rewrite (bind_ok _ _ _ _ _ (on_self_getattr _ _ _ _ Hty)).
  change (ModelInfo.is_str (PStr TAI_NAME) FLP_NAME) with false. cbv iota.
  rewrite (bind_ok _ _ _ _ _ (on_self_getattr _ _ _ _ Hty)).
  change (ModelInfo.is_str (PStr TAI_NAME) TAI_NAME) with true. cbv iota.
  apply bind_raise. apply (catch_declined _ _ _ _ _ Hcall).
  rewrite Ha, Hr. reflexivity.
Qed.

Lemma run_model_passes_other_exceptions_witness :
  let rt := Demo.raising_runtime ValueError in
  snd (ModelInfo.run_model rt [] (Some 40) (Demo.trained_self rt None, Demo.empty_world))
  = Raise (Exn ValueError "").
Proof.
  intros rt.
  rewrite (run_model_passes_other_exceptions rt [] (Some 40)
             (Demo.trained_self rt None) Demo.empty_world
             (fst (ModelInfo.tai_call rt [] (Demo.trained_self rt None, Demo.empty_world)))
             (Exn ValueError ""));
    [reflexivity| | |reflexivity|reflexivity].
  - vm_compute; reflexivity.
  - apply pair_eq_snd. vm_compute; reflexivity.
Defined.

Lemma run_model_taiyaki_whole rt raw_sig self w w1 tw dev t :
  self !! "model_type" = Some (PStr TAI_NAME) ->
  ModelInfo.tai_call rt raw_sig (self, w) = ((self, w1), Ok tw) ->
  self !! "device" = Some dev ->
  self !! "torch" = Some t ->
  ModelInfo.run_model rt raw_sig None (self, w)
  = ((self, if ModelInfo.is_cpu dev then w1
            else {| w_heap := w_heap w1; w_log := w_log w1 ++ [EvEmptyCache] |}),
     Ok (Whole tw)).
Proof.
  intros Hty Hcall Hdev Htorch. unfold ModelInfo.run_model.
  rewrite (bind_ok _ _ _ _ _ (on_self_getattr _ _ _ _ Hty)).
  change (ModelInfo.is_str (PStr TAI_NAME) FLP_NAME) with false. cbv iota.
  rewrite (bind_ok _ _ _ _ _ (on_self_getattr _ _ _ _ Hty)).
  change (ModelInfo.is_str (PStr TAI_NAME) TAI_NAME) with true. cbv iota.
  rewrite (bind_ok _ _ _ _ _ (catch_ok _ _ _ _ _ Hcall)).
  rewrite (bind_ok _ _ _ _ _ (on_self_getattr _ _ _ _ Hdev)).
  rewrite (bind_ok _ _ _ _ _ (on_self_getattr _ _ _ _ Htorch)).
  destruct (ModelInfo.is_cpu dev); cbn [negb]; [reflexivity|].
  rewrite (bind_ok _ _ (self, w1)
             (self, {| w_heap := w_heap w1; w_log := w_log w1 ++ [EvEmptyCache] |}) tt).
  2:{ rewrite (bind_ok _ _ _ _ _ (on_self_getattr _ _ _ _ Htorch)). reflexivity. }
  reflexivity.
Qed.

(** X15. Without a canonical-state count the trained backend returns the
    matrix of the chunked-inference call as it is: nothing is copied and
    no buffer is allocated, [self] is not modified, and the CUDA cache is
    emptied exactly when the worker's device is not the CPU. *)
Theorem run_model_whole_matrix :
  forall rt raw_sig self w tw dev t,
    self !! "model_type" = Some (PStr TAI_NAME) ->
    snd (ModelInfo.tai_call rt raw_sig (self, w)) = Ok tw ->
    self !! "device" = Some dev ->
    self !! "torch" = Some t ->
    let w1 := snd (fst (ModelInfo.tai_call rt raw_sig (self, w))) in
    exists w2,
      ModelInfo.run_model rt raw_sig None (self, w) = ((self, w2), Ok (Whole tw))
      /\ w_heap w2 = w_heap w1
      /\ w_log w2 = (if ModelInfo.is_cpu dev then w_log w1
                     else w_log w1 ++ [EvEmptyCache]).
Proof.
  intros rt raw_sig self w tw dev t Hty Hcall Hdev Htorch w1.
  apply (tai_call_result rt raw_sig self w tw) in Hcall. fold w1 in Hcall.
  rewrite (run_model_taiyaki_whole _ _ _ _ _ _ _ _ Hty Hcall Hdev Htorch).
  eexists. split; [reflexivity|].
  destruct (ModelInfo.is_cpu dev); split; reflexivity.
Qed.

Lemma run_model_whole_matrix_witness :
  let rt := Demo.returning_runtime 2 3 [1; 2; 3; 4; 5; 6] in
  let run device :=
    ModelInfo.run_model rt [] None (Demo.trained_self rt device, Demo.empty_world) in
  (exists w2, run None = ((Demo.trained_self rt None, w2), Ok (Whole (Demo.matrix_at 0 2 3)))
              /\ w_log w2 = [])
  /\ (exists w2, run (Some 1)
                 = ((Demo.trained_self rt (Some 1), w2), Ok (Whole (Demo.matrix_at 0 2 3)))
                 /\ w_log w2 = [EvEmptyCache]).
Proof.
  intros rt run. subst run. cbv beta. split.
  - destruct (run_model_whole_matrix rt [] (Demo.trained_self rt None) Demo.empty_world
                (Demo.matrix_at 0 2 3) (PTorchDevice None) (PHandle "torch"))
      as (w2 & Hrun & _ & Hlog); try (vm_compute; reflexivity).
    exists w2. split; [exact Hrun|]. rewrite Hlog. vm_compute. reflexivity.
  - destruct (run_model_whole_matrix rt [] (Demo.trained_self rt (Some 1)) Demo.empty_world
                (Demo.matrix_at 0 2 3) (PTorchDevice (Some 1)) (PHandle "torch"))
      as (w2 & Hrun & _ & Hlog); try (vm_compute; reflexivity).
    exists w2. split; [exact Hrun|]. rewrite Hlog. vm_compute. reflexivity.
Defined.

(** X16. On the compiled backend [run_model] returns what the compiled
    network returns for the raw signal and the model name, failures
    included; the canonical-state count is not looked at and [self] is not
    modified. *)
Theorem run_model_compiled_backend :
  forall rt raw_sig n_can_state self w name h,
    self !! "model_type" = Some (PStr FLP_NAME) ->
    self !! "flappy" = Some h ->
    self !! "name" = Some (PStr name) ->
    ModelInfo.run_model rt raw_sig n_can_state (self, w)
    = ((self, fst (flappy_run_network rt raw_sig name w)),
       snd (flappy_run_network rt raw_sig name w)).
Proof.
  intros rt raw_sig n self w name h Hty Hfl Hname. unfold ModelInfo.run_model.
  rewrite (bind_ok _ _ _ _ _ (on_self_getattr _ _ _ _ Hty)).
  change (ModelInfo.is_str (PStr FLP_NAME) FLP_NAME) with true. cbv iota.
  rewrite (bind_ok _ _ _ _ _ (on_self_getattr _ _ _ _ Hfl)).
  rewrite (bind_ok _ _ _ _ _ (on_self_getattr _ _ _ _ Hfl)).
  rewrite (bind_ok _ _ (self, w) (self, w) name).
  2:{ unfold getattr_str, ModelInfo.on_self, mbind, St_bind, bind, getattr.
      cbn [fst snd]. rewrite Hname. reflexivity. }
  unfold ModelInfo.on_world. cbn [fst snd].
  destruct (flappy_run_network rt raw_sig name w); reflexivity.
Qed.

(** X17. [run_model] on a trained model that no worker has prepared: the
    model is read inside the guarded call, so the missing [model]
    attribute is reported as [MegaError("Out of date or incompatible
    model")]; the chunked inference is not run and nothing changes. *)
Theorem run_model_before_prep_model_worker :
  forall rt raw_sig n_can_state self w h,
    self !! "model_type" = Some (PStr TAI_NAME) ->
    self !! "tai_run_model" = Some h ->
    self !! "model" = None ->
    ModelInfo.run_model rt raw_sig n_can_state (self, w)
    = ((self, w), Raise (Exn MegaError "Out of date or incompatible model")).
Proof.
  intros rt raw_sig n self w h Hty Hrun Hmodel. unfold ModelInfo.run_model.
  rewrite (bind_ok _ _ _ _ _ (on_self_getattr _ _ _ _ Hty)).
  change (ModelInfo.is_str (PStr TAI_NAME) FLP_NAME) with false. cbv iota.
  rewrite (bind_ok _ _ _ _ _ (on_self_getattr _ _ _ _ Hty)).
  change (ModelInfo.is_str (PStr TAI_NAME) TAI_NAME) with true. cbv iota.
  apply bind_raise.
  rewrite (catch_handled _ _ _ (self, w) (Exn AttributeError "model")
             (raise MegaError "Out of date or incompatible model")); [reflexivity| |reflexivity].
  unfold ModelInfo.tai_call.
  rewrite (bind_ok _ _ _ _ _ (on_self_getattr _ _ _ _ Hrun)).
  apply bind_raise. unfold ModelInfo.on_self, getattr. cbn [fst snd].
  rewrite Hmodel. reflexivity.
Qed.

Lemma run_model_compiled_backend_witness :
  let rt := Demo.cat_mod_runtime in
  let self := fst (ModelInfo.__init__ rt (Some "r941_native") None None 1
                     None None None ∅) in
  ModelInfo.run_model rt [] (Some 40) (self, Demo.empty_world)
  = ((self, Demo.empty_world), Raise (Exn RuntimeError "flappie")).
Proof.
  intros rt self.
  apply (run_model_compiled_backend rt [] (Some 40) self Demo.empty_world
           "r941_native" (PHandle "flappy"));
    vm_compute; reflexivity.
Defined.

Lemma run_model_before_prep_model_worker_witness :
  let rt := Demo.returning_runtime 2 3 [1; 2; 3; 4; 5; 6] in
  let self := fst (ModelInfo.__init__ rt None (Some "model.checkpoint") (Some [0]) 1
                     (Some 1000) (Some 100) (Some 50) ∅) in
  ModelInfo.run_model rt [] None (self, Demo.empty_world)
  = ((self, Demo.empty_world),
     Raise (Exn MegaError "Out of date or incompatible model")).
Proof.
  intros rt self.
  apply (run_model_before_prep_model_worker rt [] None self Demo.empty_world
           (PHandle "tai_run_model"));
    vm_compute; reflexivity.
Defined.

(** ** prep_model_worker *)





(** X19. [prep_model_worker] on a model that is not a trained model (a
    compiled model, for instance) does nothing: no model is loaded, no
    attribute is assigned, no runtime call is made. *)
Theorem prep_model_worker_other_models :
  forall rt device self w v,
    self !! "model_type" = Some v ->
    ModelInfo.is_str v TAI_NAME = false ->
    ModelInfo.prep_model_worker rt device (self, w) = ((self, w), Ok tt).
Proof.
  intros rt device self w v Hty Hv. unfold ModelInfo.prep_model_worker.
  rewrite (bind_ok _ _ _ _ _ (on_self_getattr _ _ _ _ Hty)), Hv. reflexivity.
Qed.

Lemma prep_model_worker_other_models_witness :
  let rt := Demo.cat_mod_runtime in
  let self := fst (ModelInfo.__init__ rt (Some "r941_native") None None 1
                     None None None ∅) in
  ModelInfo.prep_model_worker rt (Some 0) (self, Demo.empty_world)
  = ((self, Demo.empty_world), Ok tt).
Proof.
  intros rt self.
  apply (prep_model_worker_other_models rt (Some 0) self Demo.empty_world
           (PStr "flappie")); vm_compute; reflexivity.
Defined.

(** ** nstate_to_nbase away from the flip-flop state counts *)

(** The check behind the next lemma: for every [n] below [bound] the
    result is the [b >= 0] with [2 b (b + 1) <= n < 2 (b + 1) (b + 2)]. *)
Lemma nstate_to_nbase_checked :
  forallb (fun i =>
             let n := Z.of_nat i in
             match mh.nstate_to_nbase n with
             | Ok b => (0 <=? b) && (2 * b * (b + 1) <=? n) && (n <? 2 * (b + 1) * (b + 2))
             | Raise _ => false
             end)
          (seq 0 (Z.to_nat 8193)) = true.
Proof. vm_compute. reflexivity. Qed.

Lemma nstate_to_nbase_floor n :
  0 <= n <= 8192 ->
  exists b, mh.nstate_to_nbase n = Ok b
            /\ 0 <= b /\ 2 * b * (b + 1) <= n < 2 * (b + 1) * (b + 2).
Proof.
  intros Hn. pose proof nstate_to_nbase_checked as H.
  rewrite forallb_forall in H. specialize (H (Z.to_nat n)).
  rewrite Z2Nat.id in H by lia. cbv zeta in H.
  assert (Hin : In (Z.to_nat n) (seq 0 (Z.to_nat 8193))) by (apply in_seq; lia).
  specialize (H Hin). destruct (mh.nstate_to_nbase n) as [b|e]; [|discriminate].
  exists b. split; [reflexivity|]. lia.
Qed.

(** X20. Between the flip-flop state counts [nstate_to_nbase] rounds
    down: for every state count [0 <= n <= 8192] it returns the largest
    base count [b] whose flip-flop state count [2 b (b + 1)] does not
    exceed [n]; it returns 4 exactly for [40 <= n <= 59]. *)
Theorem nstate_to_nbase_rounds_down :
  forall n,
    0 <= n <= 8192 ->
    (exists b, mh.nstate_to_nbase n = Ok b
               /\ 0 <= b /\ 2 * b * (b + 1) <= n < 2 * (b + 1) * (b + 2))
    /\ (mh.nstate_to_nbase n = Ok 4 <-> 40 <= n <= 59).
Proof.
  intros n Hn. destruct (nstate_to_nbase_floor n Hn) as (b & Hb & Hb0 & Hlo & Hhi).
  split; [exists b; auto|].
  rewrite Hb. split.
  - intros [= ->]. lia.
  - intros H. f_equal. nia.
Qed.

Lemma nstate_to_nbase_rounds_down_witness :
  mh.nstate_to_nbase 59 = Ok 4 /\ ~ mh.nstate_to_nbase 60 = Ok 4.
Proof.
  split.
  - apply (proj2 (nstate_to_nbase_rounds_down 59 ltac:(lia))). lia.
  - intros H. apply (proj2 (nstate_to_nbase_rounds_down 60 ltac:(lia))) in H. lia.
Defined.

Lemma f64_add_opposite p q e :
  (q < p)%positive ->
  fits 53 1024 p e -> fits 53 1024 q e -> fits 53 1024 (p - q) e ->
  SFadd 53 1024 (nf 53 false q e) (nf 53 true p e) = nf 53 true (p - q) e.
Proof.
  intros Hlt Hp Hq Hr. unfold nf at 1 2. cbn [SFadd cond_Zopp].
  set (K := Nat.max (lead 53 p) (lead 53 q)).
  replace (Z.min (e - Z.of_nat (lead 53 q)) (e - Z.of_nat (lead 53 p)))
    with (e - Z.of_nat K) by (unfold K; lia).
  rewrite !aligned_mantissa by (unfold K; lia).
  assert (Hk : (shl q K < shl p K)%positive).
  { change (Z.pos (shl q K) < Z.pos (shl p K)). rewrite !shl_val.
    apply Z.mul_lt_mono_pos_r; [apply Z.pow_pos_nonneg; lia|lia]. }
  match goal with
  | |- context [binary_normalize _ _ ?m _ _] =>
      replace m with (Z.neg (shl (p - q) K))
  end.
  2:{ rewrite <- shl_minus by exact Hlt.
      change (Z.neg (shl p K - shl q K)) with (- Z.pos (shl p K - shl q K)).
      rewrite Pos2Z.inj_sub by exact Hk.
      change (Z.pos (shl q K) + - Z.pos (shl p K) = - (Z.pos (shl p K) - Z.pos (shl q K))) || idtac.
      lia. }
  cbn [binary_normalize].
  apply round_aligned; [lia|exact Hr].
Qed.

(** X21. A negative state count is not clamped: for every
    [-2^52 < n < 0] the square root is taken of a negative number, the
    result is NaN, and the conversion to [int] raises [ValueError]. *)
Theorem nstate_to_nbase_negative :
  forall n,
    - 2 ^ 52 < n < 0 ->
    mh.nstate_to_nbase n
    = Raise (Exn ValueError "cannot convert float NaN to integer").
Proof.
  intros n Hn. destruct n as [|p|p]; try lia.
  assert (Hp : Z.pos p < 2 ^ 52) by lia.
  assert (Hdig : forall q, Z.pos q < 2 ^ 53 -> (dig q <= Z.to_nat 53)%nat)
    by (intros q Hq; apply dig_le_iff; exact Hq).
  assert (Hs : Z.pos (shl p 1) = 2 * Z.pos p)
    by (rewrite shl_val; change (2 ^ Z.of_nat 1) with 2; lia).
  assert (Hx : float_of_int (Z.neg p) = Ok (nf 53 true p 0)).
  { unfold float_of_int, f64_lit. cbn [binary_normalize].
    rewrite (binary_round_nf 53 1024) by (lia || apply fits64; lia). reflexivity. }
  unfold mh.nstate_to_nbase. rewrite Hx. cbn [mbind result_bind rbind].
  rewrite !f64_lit_nf by (apply fits64; lia).
  unfold f64_mul, f64_add, f64_sqrt, f64_sub.
  rewrite SFmul_pow2 by (lia || apply fits64; lia).
  replace (nf 53 true p (0 + -1)) with (nf 53 true (shl p 1) (-2))
    by (rewrite nf_shl by first [apply Hdig; lia|lia]; reflexivity).
  rewrite f64_add_opposite by (lia || apply fits64; lia).
  reflexivity.
Qed.

Lemma nstate_to_nbase_negative_witness :
  mh.nstate_to_nbase (-1) = Raise (Exn ValueError "cannot convert float NaN to integer").
Proof. apply nstate_to_nbase_negative. lia. Defined.

(** X22. Which plain trained models are accepted: when construction
    reaches the check on the final layer of a model that is not a cat_mod
    model, with an output size [0 <= n <= 8192], it completes exactly when
    [40 <= n <= 59], and raises [NotImplementedError] for every other
    size; the sizes 41 to 59, which are not the state count of any
    flip-flop model, are accepted as four-base models. *)
Theorem plain_model_accepted_sizes :
  forall rt fn devices num_proc cs co mcc pd sublayers ff,
    process_devices devices num_proc = Ok pd ->
    taiyaki_importable rt = true ->
    load_taiyaki_model rt fn = Ok sublayers ->
    getitem sublayers (-1) = Ok ff ->
    catmod_importable rt && ff_is_GlobalNormFlipFlopCatMod ff = false ->
    0 <= ff_size ff <= 8192 ->
    let r := ModelInfo.__init__ rt None (Some fn) (Some devices) num_proc
               (Some cs) (Some co) (Some mcc) ∅ in
    (40 <= ff_size ff <= 59 -> snd r = Ok tt)
    /\ (~ 40 <= ff_size ff <= 59 ->
        snd r = Raise (Exn NotImplementedError ModelInfo.unsupported_msg)).
Proof.
  intros rt fn devices num_proc cs co mcc pd sublayers ff
         Hpd Himp Hload Hget Hcat Hsize r.
  destruct (nstate_to_nbase_floor _ Hsize) as (b & Hb & Hb0 & Hrange).
  subst r. unfold ModelInfo.__init__, ModelInfo.init_taiyaki.
  rewrite !bool_decide_eq_false_2 by discriminate.
  run_M. rewrite Hpd. unfold ModelInfo.init_taiyaki_model.
  run_M. rewrite Himp, Hload.
  run_M. rewrite Hget.
  run_M. rewrite Hcat. unfold ModelInfo.init_taiyaki_plain.
  run_M. rewrite Hb.
  split; intros Hn.
  - assert (b = 4) as -> by nia. vm_compute. reflexivity.
  - assert (Hne : b <> 4) by lia.
    apply Z.eqb_neq in Hne. rewrite Hne. vm_compute. reflexivity.
Qed.

Lemma plain_model_accepted_sizes_witness :
  let rt n := Demo.runtime_of Demo.no_cat_mods (Demo.plain_layer n)
                (fun w => (w, Raise (Exn RuntimeError ""))) in
  let r n := ModelInfo.__init__ (rt n) None (Some "model.checkpoint") (Some [0]) 1
               (Some 1000) (Some 100) (Some 50) ∅ in
  snd (r 47) = Ok tt
  /\ snd (r 60) = Raise (Exn NotImplementedError ModelInfo.unsupported_msg).
Proof.
  intros rt r. split.
  - refine (proj1 (plain_model_accepted_sizes (rt 47) "model.checkpoint" [0] 1
               1000 100 50 [0] [Demo.plain_layer 47] (Demo.plain_layer 47)
               _ _ _ _ _ _) _);
      try (vm_compute; reflexivity); cbn; lia.
  - refine (proj2 (plain_model_accepted_sizes (rt 60) "model.checkpoint" [0] 1
               1000 100 50 [0] [Demo.plain_layer 60] (Demo.plain_layer 60)
               _ _ _ _ _ _) _);
      try (vm_compute; reflexivity); cbn; lia.
Defined.

(** ** The median of med_mad is an order statistic *)











(** ** Integer samples survive the conversion to float32 *)

Lemma fits32 p : Z.pos p < 2 ^ 24 -> fits 24 128 p 0.
Proof.
  intros Hp.
  assert (Hd : (dig p <= 24)%nat) by (apply dig_le_iff; exact Hp).
  unfold fits, lead. change (emin 24 128) with (-149).
  change (Z.to_nat 24) with 24%nat. lia.
Qed.

Lemma int_of_float_nf32 s p :
  fits 24 128 p 0 -> int_of_float (nf 24 s p 0) = Ok (cond_Zopp s (Z.pos p)).
Proof.
  intros [Hd _]. unfold nf, int_of_float. f_equal. f_equal.
  rewrite shl_val.
  destruct (Z.leb_spec 0 (0 - Z.of_nat (lead 24 p))) as [H|H].
  - replace (lead 24 p) with 0%nat by lia. cbn. lia.
  - replace (- (0 - Z.of_nat (lead 24 p))) with (Z.of_nat (lead 24 p)) by lia.
    apply Z.div_mul. apply Z.pow_nonzero; lia.
Qed.

Lemma int_of_float_f32_of_Z z :
  - 2 ^ 24 < z < 2 ^ 24 -> int_of_float (f32_of_Z z) = Ok z.
Proof.
  intros Hz. destruct z as [|p|p]; [reflexivity| |].
  - unfold f32_of_Z. cbn [binary_normalize].
    rewrite (binary_round_nf 24 128) by (lia || apply fits32; lia).
    apply (int_of_float_nf32 false). apply fits32. lia.
  - unfold f32_of_Z. cbn [binary_normalize].
    rewrite (binary_round_nf 24 128) by (lia || apply fits32; lia).
    apply (int_of_float_nf32 true). apply fits32. lia.
Qed.

(** X24. Integer samples of less than 25 bits (the 16-bit samples of a
    sequencer among them) are not changed by the conversion to float32:
    the signal returned without scaling converts back, sample by sample,
    to the integers that were stored. *)
Theorem integer_samples_are_exact :
  forall fs fn f slot samples,
    fs fn = Some f ->
    mh.first_raw_slot f = Ok slot ->
    mh.Signal slot = Some (mh.IntData samples) ->
    Forall (fun z => - 2 ^ 24 < z < 2 ^ 24) samples ->
    exists raw_sig read_id,
      snd (mh.extract_read_data fs fn false) = Ok (raw_sig, read_id)
      /\ length raw_sig = length samples
      /\ mapM int_of_float raw_sig = Ok samples.
Proof.
  intros fs fn f slot samples Hf Hslot Hsig Hrange.
  assert (Hread : mh.read_signal slot = Ok (map f32_of_Z samples))
    by (unfold mh.read_signal; rewrite Hsig; reflexivity).
  rewrite (extract_read_data_ok _ _ _ _ _ _ Hf Hslot Hread). cbn [snd].
  eexists _, _. split; [reflexivity|]. split; [apply length_map|].
  clear - Hrange. induction Hrange as [|z l Hz Hl IH]; [reflexivity|].
  cbn [map mapM]. rewrite (int_of_float_f32_of_Z z Hz).
  cbn [mbind result_bind rbind]. rewrite IH. reflexivity.
Qed.

Lemma integer_samples_are_exact_witness :
  exists raw_sig read_id,
    snd (mh.extract_read_data
           (Demo.one_read (Demo.read_slot None [512; -3; 16777215])) "read.fast5" false)
    = Ok (raw_sig, read_id)
    /\ length raw_sig = 3%nat
    /\ mapM int_of_float raw_sig = Ok [512; -3; 16777215].
Proof.
  apply (integer_samples_are_exact _ "read.fast5"
           {| mh.Raw_Reads := Some [Demo.read_slot None [512; -3; 16777215]] |}
           (Demo.read_slot None [512; -3; 16777215]) [512; -3; 16777215]);
    try reflexivity.
  repeat constructor; lia.
Defined.

(** ** Construction of a trained cat_mod model *)

Section GroupingLoop.
Context (s0 : obj) (ci : list Z).
Hypothesis Hci : s0 !! "can_indices" = Some (PIntArr ci).

Lemma loop_state_step lab d lab' d' :
  <["can_base_mods" := PDict d']>
    (<["str_to_int_mod_labels" := PDict lab']> (loop_state s0 lab d))
  = loop_state s0 lab' d'.
Proof.
  unfold loop_state.
  rewrite (insert_insert_ne _ "str_to_int_mod_labels" "can_base_mods") by discriminate.
  rewrite !insert_insert_eq. reflexivity.
Qed.

Lemma taiyaki_group_loop_canonical base rest base_i curr lab d :
  base_i ∈ ci ->
  ModelInfo.taiyaki_group_loop (base :: rest) base_i curr (loop_state s0 lab d)
  = ModelInfo.taiyaki_group_loop rest (base_i + 1) (Some (base, 0)) (loop_state s0 lab d).
Proof.
  intros Hin. cbn [ModelInfo.taiyaki_group_loop].
  unfold getattr_arr. run_M. unfold loop_state at 1. lookup_step. rewrite Hci.
  cbv beta iota. rewrite bool_decide_eq_true_2 by exact Hin. reflexivity.
Qed.

Lemma taiyaki_group_loop_modified base rest base_i c j lab d l :
  base_i ∉ ci ->
  default (PList []) (d !! chr c) = PList l ->
  ModelInfo.taiyaki_group_loop (base :: rest) base_i (Some (c, j)) (loop_state s0 lab d)
  = ModelInfo.taiyaki_group_loop rest (base_i + 1) (Some (c, j + 1))
      (loop_state s0 (<[chr base := PInt j]> lab)
                     (<[chr c := PList (l ++ [PStr (chr base)])]> d)).
Proof.
  intros Hin Hd. cbn [ModelInfo.taiyaki_group_loop].
  unfold getattr_arr, getattr_dict, defaultdict_append. run_M.
  unfold loop_state at 1. lookup_step. rewrite Hci.
  cbv beta iota. rewrite bool_decide_eq_false_2 by exact Hin.
  unfold loop_state at 1. lookup_step. cbv beta iota.
  lookup_step. cbv beta iota.
  unfold loop_state at 1. lookup_step. cbv beta iota. rewrite Hd.
  rewrite loop_state_step. reflexivity.
Qed.

End GroupingLoop.

Lemma chr_inj a b : chr a = chr b -> a = b.
Proof. unfold chr. intros [= ->]. reflexivity. Qed.

Lemma add_mods_lookup c done d0 :
  d0 !! chr c = None ->
  default (PList []) (add_mods c done d0 !! chr c)
  = PList (map (fun m => PStr (chr m)) done).
Proof.
  intros Hd. destruct done as [|x done]; cbn [add_mods].
  - rewrite Hd. reflexivity.
  - rewrite lookup_insert_eq. reflexivity.
Qed.

Lemma add_mods_snoc c done m d0 :
  <[chr c := PList (map (fun m => PStr (chr m)) done ++ [PStr (chr m)])]>
    (add_mods c done d0)
  = add_mods c (done ++ [m]) d0.
Proof.
  destruct done as [|x done]; cbn [add_mods app]; [reflexivity|].
  rewrite insert_insert_eq. unfold mod_list. cbn [map].
  rewrite map_app. reflexivity.
Qed.

Lemma starts_from_lower o groups x : x ∈ starts_from o groups -> o <= x.
Proof.
  revert o. induction groups as [|g gs IH]; intros o Hx; cbn [starts_from] in Hx.
  - by apply elem_of_nil in Hx.
  - apply elem_of_cons in Hx as [->|Hx]; [lia|]. apply IH in Hx. lia.
Qed.

Section GroupingLoopRuns.
Context (s0 : obj) (ci : list Z).
Hypothesis Hci : s0 !! "can_indices" = Some (PIntArr ci).

Lemma taiyaki_group_loop_mods ms : forall done rest base_i c lab d0,
  d0 !! chr c = None ->
  (forall i, base_i <= i < base_i + Z.of_nat (length ms) -> i ∉ ci) ->
  ModelInfo.taiyaki_group_loop (ms ++ rest) base_i
    (Some (c, Z.of_nat (length done))) (loop_state s0 lab (add_mods c done d0))
  = ModelInfo.taiyaki_group_loop rest (base_i + Z.of_nat (length ms))
      (Some (c, Z.of_nat (length (done ++ ms))))
      (loop_state s0 (add_labels (Z.of_nat (length done)) ms lab)
                     (add_mods c (done ++ ms) d0)).
Proof.
  induction ms as [|m ms IH]; intros done rest base_i c lab d0 Hd Hpos.
  - cbn [app length add_labels]. rewrite app_nil_r, Z.add_0_r. reflexivity.
  - cbn [app].
    rewrite (taiyaki_group_loop_modified s0 ci Hci m (ms ++ rest) base_i c _ lab _ _
               ltac:(apply Hpos; cbn [length]; lia) (add_mods_lookup c done d0 Hd)).
    rewrite add_mods_snoc.
    replace (Z.of_nat (length done) + 1) with (Z.of_nat (length (done ++ [m])))
      by (rewrite length_app; cbn [length]; lia).
    rewrite (IH (done ++ [m]) rest (base_i + 1) c _ d0 Hd)
      by (intros i Hi; apply Hpos; cbn [length]; lia).
    rewrite <- !app_assoc. cbn [app add_labels length].
    replace (base_i + 1 + Z.of_nat (length ms))
      with (base_i + Z.of_nat (S (length ms))) by lia.
    replace (Z.of_nat (length (done ++ [m]))) with (Z.of_nat (length done) + 1)
      by (rewrite length_app; cbn [length]; lia).
    reflexivity.
Qed.

Lemma taiyaki_group_loop_groups (Q : layout) : forall pre o curr lab d,
  ci = pre ++ starts_from o Q ->
  (forall x, x ∈ pre -> x < o) ->
  NoDup (map fst Q) ->
  (forall g, g ∈ Q -> d !! chr (fst g) = None) ->
  ModelInfo.taiyaki_group_loop (alphabet_of Q) o curr (loop_state s0 lab d)
  = (loop_state s0
       (foldl (fun lab g => add_labels 0 (snd g) lab) lab Q)
       (foldl (fun d g => add_mods (fst g) (snd g) d) d Q),
     Ok tt).
Proof.
  induction Q as [|[c ms] Q IH]; intros pre o curr lab d Hsplit Hpre Hnd Hfresh.
  - reflexivity.
  - unfold alphabet_of. cbn [map concat fst snd app foldl].
    fold (alphabet_of Q). cbn [starts_from snd] in Hsplit.
    rewrite (taiyaki_group_loop_canonical s0 ci Hci)
      by (rewrite Hsplit; apply elem_of_app; right; left).
    change 0 with (Z.of_nat (length (@nil ascii))).
    change d with (add_mods c [] d) at 1.
    rewrite (taiyaki_group_loop_mods ms [] (alphabet_of Q) (o + 1) c lab d).
    + cbn [app length]. apply NoDup_cons in Hnd as [Hc Hnd]. cbn [fst] in Hc.
      apply (IH (pre ++ [o])).
      * rewrite Hsplit, <- app_assoc. reflexivity.
      * intros x Hx. apply elem_of_app in Hx as [Hx|Hx].
        -- specialize (Hpre x Hx). lia.
        -- apply list_elem_of_singleton in Hx. lia.
      * exact Hnd.
      * intros g Hg.
        assert (Hne : fst g <> c).
        { intros <-. apply Hc. apply list_elem_of_fmap. exists g. auto. }
        destruct ms as [|m ms]; cbn [add_mods].
        -- apply Hfresh. right. exact Hg.
        -- rewrite lookup_insert_ne by (intros Heq; apply chr_inj in Heq; congruence).
           apply Hfresh. right. exact Hg.
    + apply (Hfresh (c, ms)). left.
    + intros i Hi Hin. rewrite Hsplit in Hin.
      apply elem_of_app in Hin as [Hin|Hin].
      * specialize (Hpre i Hin). lia.
      * apply elem_of_cons in Hin as [->|Hin]; [lia|].
        apply starts_from_lower in Hin. lia.
Qed.

End GroupingLoopRuns.

Lemma foldl_add_mods_other (Q : layout) : forall d c,
  c ∉ map fst Q ->
  foldl (fun d g => add_mods (fst g) (snd g) d) d Q !! chr c = d !! chr c.
Proof.
  induction Q as [|[c' ms] Q IH]; intros d c Hc; cbn [foldl fst snd]; [reflexivity|].
  cbn [map fst] in Hc. apply not_elem_of_cons in Hc as [Hne Hc].
  rewrite IH by exact Hc.
  destruct ms; cbn [add_mods]; [reflexivity|].
  apply lookup_insert_ne. intros Heq. apply chr_inj in Heq. congruence.
Qed.

Lemma foldl_add_mods_lookup (Q : layout) : forall d c ms,
  NoDup (map fst Q) ->
  (c, ms) ∈ Q ->
  d !! chr c = None ->
  foldl (fun d g => add_mods (fst g) (snd g) d) d Q !! chr c
  = match ms with [] => None | _ => Some (mod_list ms) end.
Proof.
  induction Q as [|[c' ms'] Q IH]; intros d c ms Hnd Hin Hd.
  - by apply elem_of_nil in Hin.
  - cbn [map fst] in Hnd. apply NoDup_cons in Hnd as [Hc' Hnd].
    cbn [foldl fst snd].
    apply elem_of_cons in Hin as [[= -> ->]|Hin].
    + rewrite foldl_add_mods_other by exact Hc'.
      destruct ms'; cbn [add_mods]; [exact Hd|apply lookup_insert_eq].
    + apply IH; [exact Hnd|exact Hin|].
      assert (Hne : c <> c').
      { intros ->. apply Hc'. apply list_elem_of_fmap. exists (c', ms). auto. }
      destruct ms'; cbn [add_mods]; [exact Hd|].
      rewrite lookup_insert_ne by (intros Heq; apply chr_inj in Heq; congruence).
      exact Hd.
Qed.

Lemma add_labels_other ms : forall j lab m,
  m ∉ ms -> add_labels j ms lab !! chr m = lab !! chr m.
Proof.
  induction ms as [|x ms IH]; intros j lab m Hm; cbn [add_labels]; [reflexivity|].
  apply not_elem_of_cons in Hm as [Hne Hm]. rewrite IH by exact Hm.
  apply lookup_insert_ne. intros Heq. apply chr_inj in Heq. congruence.
Qed.

Lemma add_labels_lookup ms : forall j lab (k : nat) m,
  NoDup ms -> ms !! k = Some m ->
  add_labels j ms lab !! chr m = Some (PInt (j + Z.of_nat k)).
Proof.
  induction ms as [|x ms IH]; intros j lab k m Hnd Hk; [discriminate|].
  apply NoDup_cons in Hnd as [Hx Hnd]. cbn [add_labels].
  destruct k as [|k]; cbn in Hk.
  - injection Hk as ->. rewrite add_labels_other by exact Hx.
    rewrite lookup_insert_eq. do 2 f_equal. lia.
  - rewrite (IH _ _ k m Hnd Hk). do 2 f_equal. lia.
Qed.

Lemma foldl_add_labels_other (Q : layout) : forall lab m,
  m ∉ concat (map snd Q) ->
  foldl (fun lab g => add_labels 0 (snd g) lab) lab Q !! chr m = lab !! chr m.
Proof.
  induction Q as [|[c ms] Q IH]; intros lab m Hm; cbn [foldl snd]; [reflexivity|].
  cbn [map concat snd] in Hm. apply not_elem_of_app in Hm as [Hm1 Hm2].
  rewrite IH by exact Hm2. apply add_labels_other, Hm1.
Qed.

Lemma foldl_add_labels_lookup (Q : layout) : forall lab c ms (k : nat) m,
  NoDup (concat (map snd Q)) ->
  (c, ms) ∈ Q -> ms !! k = Some m ->
  foldl (fun lab g => add_labels 0 (snd g) lab) lab Q !! chr m
  = Some (PInt (Z.of_nat k)).
Proof.
  induction Q as [|[c' ms'] Q IH]; intros lab c ms k m Hnd Hin Hk.
  - by apply elem_of_nil in Hin.
  - cbn [map concat snd] in Hnd. apply NoDup_app in Hnd as (Hnd1 & Hdisj & Hnd2).
    cbn [foldl snd].
    apply elem_of_cons in Hin as [[= -> ->]|Hin].
    + rewrite foldl_add_labels_other
        by (apply Hdisj; eapply list_elem_of_lookup_2; exact Hk).
      apply (add_labels_lookup ms' 0 lab k m Hnd1 Hk).
    + apply (IH _ c ms k m Hnd2 Hin Hk).
Qed.

Lemma slice_to_all_but_last {A} (x : A) l :
  slice_to (x :: l) (-1) = take (length l) (x :: l).
Proof.
  unfold slice_to, norm_slice_index. cbn [length].
  destruct (Z.ltb_spec (-1) 0); [|lia]. f_equal. lia.
Qed.

Lemma cumsum_from_starts (Q : layout) : forall g acc,
  cumsum_from acc (map (fun n => n + 1) (take (length Q) (nmods_of (g :: Q))))
  = starts_from (acc + 1 + Z.of_nat (length (snd g))) Q.
Proof.
  induction Q as [|g' Q IH]; intros g acc; [reflexivity|].
  cbn [length nmods_of map take cumsum_from starts_from].
  replace (acc + (Z.of_nat (length (snd g)) + 1))
    with (acc + 1 + Z.of_nat (length (snd g))) by lia.
  f_equal. apply (IH g').
Qed.

Lemma can_indices_of_layout g (Q : layout) :
  ModelInfo.can_indices_of (nmods_of (g :: Q)) = starts_from 0 (g :: Q).
Proof.
  unfold ModelInfo.can_indices_of, cumsum.
  change (nmods_of (g :: Q)) with (Z.of_nat (length (snd g)) :: nmods_of Q).
  rewrite slice_to_all_but_last. unfold nmods_of at 1. rewrite length_map.
  cbn [cumsum_from starts_from]. f_equal.
  apply (cumsum_from_starts Q g (0 + 0)).
Qed.

Lemma bases_at_layout (Q : layout) : forall pre,
  mapM (getitem (pre ++ alphabet_of Q)) (starts_from (Z.of_nat (length pre)) Q)
  = Ok (map fst Q).
Proof.
  induction Q as [|[c ms] Q IH]; intros pre; [reflexivity|].
  cbn [starts_from mapM map fst snd].
  assert (Hget : getitem (pre ++ alphabet_of ((c, ms) :: Q)) (Z.of_nat (length pre)) = Ok c).
  { unfold getitem. rewrite length_app.
    unfold alphabet_of. cbn [map concat fst snd app length].
    destruct (Z.ltb_spec (Z.of_nat (length pre)) 0); [lia|].
    destruct (Z.ltb_spec (Z.of_nat (length pre)) 0); [lia|].
    destruct (Z.leb_spec (Z.of_nat (length pre + S (length (ms ++ concat (map (fun g => fst g :: snd g) Q)))))
                         (Z.of_nat (length pre))); [lia|].
    cbn [orb]. rewrite Nat2Z.id.
    rewrite lookup_app_r by lia. rewrite Nat.sub_diag. reflexivity. }
  rewrite Hget. cbn [mbind result_bind rbind].
  specialize (IH (pre ++ c :: ms)).
  replace (pre ++ alphabet_of ((c, ms) :: Q)) with ((pre ++ c :: ms) ++ alphabet_of Q)
    by (unfold alphabet_of; cbn [map concat fst snd]; rewrite <- app_assoc; reflexivity).
  replace (Z.of_nat (length pre) + 1 + Z.of_nat (length ms))
    with (Z.of_nat (length (pre ++ c :: ms)))
    by (rewrite length_app; cbn [length]; lia).
  rewrite IH. reflexivity.
Qed.

(** X25. The layout that a trained cat_mod model gets.  Let the final
    layer declare an output alphabet made of groups, each a canonical
    base followed by its modified bases, with [can_nmods] the sizes of
    the groups, distinct canonical bases and distinct modified bases.
    Then construction completes and: [can_indices] holds the position of
    each canonical base, [can_alphabet] the canonical bases in order,
    [can_base_mods] maps each canonical base that has modified bases to
    the list of them in order (a canonical base without any has no
    entry), [str_to_int_mod_labels] maps each modified base to its rank
    within its group, counted from 0, and [n_mods] is the number of
    entries of [mod_long_names_conv], whatever [can_nmods] says. *)
Theorem trained_cat_mod_layout :
  forall rt fn devices num_proc cs co mcc pd sublayers ff (groups : layout),
    process_devices devices num_proc = Ok pd ->
    taiyaki_importable rt = true ->
    load_taiyaki_model rt fn = Ok sublayers ->
    getitem sublayers (-1) = Ok ff ->
    catmod_importable rt && ff_is_GlobalNormFlipFlopCatMod ff = true ->
    groups <> [] ->
    ff_output_alphabet ff = string_of_list_ascii (alphabet_of groups) ->
    ff_can_nmods ff = nmods_of groups ->
    NoDup (map fst groups) ->
    NoDup (concat (map snd groups)) ->
    let r := ModelInfo.__init__ rt None (Some fn) (Some devices) num_proc
               (Some cs) (Some co) (Some mcc) ∅ in
    snd r = Ok tt
    /\ fst r !! "is_cat_mod" = Some (PBool true)
    /\ fst r !! "output_size" = Some (PInt (ff_size ff))
    /\ fst r !! "output_alphabet" = Some (PStr (ff_output_alphabet ff))
    /\ fst r !! "can_indices" = Some (PIntArr (starts_from 0 groups))
    /\ fst r !! "can_alphabet" = Some (PStr (string_of_list_ascii (map fst groups)))
    /\ fst r !! "n_mods"
       = Some (PInt (Z.of_nat (length (ff_mod_long_names_conv ff))))
    /\ (exists d, fst r !! "can_base_mods" = Some (PDict d)
          /\ forall c ms, (c, ms) ∈ groups ->
               d !! chr c = match ms with [] => None | _ => Some (mod_list ms) end)
    /\ (exists lab, fst r !! "str_to_int_mod_labels" = Some (PDict lab)
          /\ forall c ms (k : nat) m, (c, ms) ∈ groups -> ms !! k = Some m ->
               lab !! chr m = Some (PInt (Z.of_nat k))).
Proof.
  intros rt fn devices num_proc cs co mcc pd sublayers ff groups
         Hpd Himp Hload Hget Hcat Hne Hoa Hnm Hnd1 Hnd2 r.
  assert (Hr : exists s res, ModelInfo.__init__ rt None (Some fn) (Some devices) num_proc
               (Some cs) (Some co) (Some mcc) ∅ = (s, res) /\ r = (s, res))
    by (eexists _, _; split; [apply surjective_pairing|apply surjective_pairing]).
  destruct Hr as (s & res & Hrun & ->). cbn [fst snd]. revert Hrun.
  unfold ModelInfo.__init__, ModelInfo.init_taiyaki.
  rewrite !bool_decide_eq_false_2 by discriminate.
  run_M. rewrite Hpd. unfold ModelInfo.init_taiyaki_model.
  run_M. rewrite Himp, Hload.
  run_M. rewrite Hget.
  run_M. rewrite Hcat. lookup_step. cbv beta iota.
  unfold ModelInfo.init_taiyaki_cat_mod.
  unfold getattr_arr, getattr_int, getattr_str, getattr_dict, getattr_list.
  step_M.
  destruct groups as [|g Q]; [congruence|].
  rewrite Hnm, can_indices_of_layout.
  unfold bases_at. rewrite Hoa, list_ascii_of_string_of_list_ascii.
  pose proof (bases_at_layout (g :: Q) []) as Hbases.
  change ([] ++ alphabet_of (g :: Q)) with (alphabet_of (g :: Q)) in Hbases.
  change (Z.of_nat (length (@nil ascii))) with 0 in Hbases.
  rewrite Hbases.
  cbn [fmap result_fmap rbind]. step_M.
  rewrite ?list_ascii_of_string_of_list_ascii.
  match goal with
  | |- context [ModelInfo.taiyaki_group_loop _ 0 None
                  (<["can_base_mods" := PDict ∅]>
                     (<["str_to_int_mod_labels" := PDict ∅]> ?s1))] =>
      change (<["can_base_mods" := PDict ∅]>
                (<["str_to_int_mod_labels" := PDict ∅]> s1))
        with (loop_state s1 ∅ ∅);
      rewrite (taiyaki_group_loop_groups s1 (starts_from 0 (g :: Q))
                 ltac:(lookup_step; reflexivity) (g :: Q) [] 0 None ∅ ∅
                 eq_refl ltac:(intros x Hx; by apply elem_of_nil in Hx) Hnd1
                 ltac:(intros; apply lookup_empty))
  end.
  unfold loop_state. step_M.
  intros [= <- <-].
  split; [reflexivity|].
  split; [lookup_step; reflexivity|].
  split; [lookup_step; reflexivity|].
  split; [lookup_step; rewrite ?Hoa; reflexivity|].
  split; [lookup_step; reflexivity|].
  split; [lookup_step; reflexivity|].
  split; [lookup_step; rewrite length_map; reflexivity|].
  split.
  - eexists. split; [lookup_step; reflexivity|].
    intros c ms Hin.
    exact (foldl_add_mods_lookup (g :: Q) ∅ c ms Hnd1 Hin (lookup_empty _)).
  - eexists. split; [lookup_step; reflexivity|].
    intros c ms k m Hin Hk. exact (foldl_add_labels_lookup (g :: Q) ∅ c ms k m Hnd2 Hin Hk).
Qed.

Lemma trained_cat_mod_layout_witness :
  let rt := Demo.runtime_of Demo.no_cat_mods Demo.cat_mod_layer
              (fun w => (w, Raise (Exn RuntimeError ""))) in
  let r := ModelInfo.__init__ rt None (Some "model.checkpoint") (Some [0]) 1
             (Some 1000) (Some 100) (Some 50) ∅ in
  snd r = Ok tt
  /\ fst r !! "can_indices" = Some (PIntArr [0; 2; 3; 6])
  /\ fst r !! "can_alphabet" = Some (PStr "ACGT")
  /\ fst r !! "n_mods" = Some (PInt 3)
  /\ (exists d, fst r !! "can_base_mods" = Some (PDict d)
        /\ d !! "G" = Some (PList [PStr "Y"; PStr "X"])
        /\ d !! "C" = None)
  /\ (exists lab, fst r !! "str_to_int_mod_labels" = Some (PDict lab)
        /\ lab !! "X" = Some (PInt 1)).
Proof.
  intros rt r.
  destruct (trained_cat_mod_layout rt "model.checkpoint" [0] 1 1000 100 50 [0]
              [Demo.cat_mod_layer] Demo.cat_mod_layer
              [("A", ["Z"]); ("C", []); ("G", ["Y"; "X"]); ("T", [])]%char
              eq_refl eq_refl eq_refl eq_refl eq_refl ltac:(discriminate)
              eq_refl eq_refl
              ltac:(apply (bool_decide_unpack _); vm_compute; exact I)
              ltac:(apply (bool_decide_unpack _); vm_compute; exact I))
    as (H1 & _ & _ & _ & H2 & H3 & H4 & (d & Hd & Hmods) & (lab & Hlab & Hlabels)).
  split; [exact H1|]. split; [exact H2|]. split; [exact H3|]. split; [exact H4|].
  split.
  - exists d. split; [exact Hd|]. split.
    + apply (Hmods "G"%char ["Y"; "X"]%char). right; right; left.
    + apply (Hmods "C"%char []). right; left.
  - exists lab. split; [exact Hlab|].
    apply (Hlabels "G"%char ["Y"; "X"]%char 1%nat "X"%char);
      [right; right; left|reflexivity].
Defined.

(** ** The grouping loop of the trained backend never fails *)

Lemma can_indices_of_head cn : exists rest, ModelInfo.can_indices_of cn = 0 :: rest.
Proof. unfold ModelInfo.can_indices_of, cumsum. cbn [cumsum_from]. eexists. reflexivity. Qed.

Lemma taiyaki_group_loop_completes (s0 : obj) (ci : list Z) :
  s0 !! "can_indices" = Some (PIntArr ci) ->
  forall bases base_i curr lab d,
    map_Forall (fun _ v => exists l, v = PList l) d ->
    (curr = None -> base_i ∈ ci) ->
    exists lab' d',
      ModelInfo.taiyaki_group_loop bases base_i curr (loop_state s0 lab d)
      = (loop_state s0 lab' d', Ok tt)
      /\ map_Forall (fun _ v => exists l, v = PList l) d'.
Proof.
  intros Hci. induction bases as [|base rest IH]; intros base_i curr lab d Hd Hcurr.
  - exists lab, d. split; [reflexivity|exact Hd].
  - destruct (decide (base_i ∈ ci)) as [Hin|Hin].
    + rewrite (taiyaki_group_loop_canonical s0 ci Hci) by exact Hin.
      apply IH; [exact Hd|discriminate].
    + destruct curr as [[c j]|]; [|exfalso; apply Hin, Hcurr; reflexivity].
      assert (Hl : exists l, default (PList []) (d !! chr c) = PList l).
      { destruct (d !! chr c) as [v|] eqn:Hv; [|exists []; reflexivity].
        destruct (Hd _ _ Hv) as [l ->]. exists l. reflexivity. }
      destruct Hl as [l Hl].
      rewrite (taiyaki_group_loop_modified s0 ci Hci base rest base_i c j lab d l Hin Hl).
      apply IH; [|discriminate].
      apply map_Forall_insert_2; [eexists; reflexivity|exact Hd].
Qed.

Lemma mapM_getitem_error {A} (l : list A) idx e :
  mapM (getitem l) idx = Raise e -> exn_cls e = IndexError.
Proof.
  induction idx as [|i idx IH]; cbn [mapM]; [discriminate|].
  destruct (getitem l i) as [x|e'] eqn:Hx; cbn [mbind result_bind rbind].
  - destruct (mapM (getitem l) idx) as [ys|e'']; cbn [rbind]; [discriminate|].
    intros [= <-]. apply IH. reflexivity.
  - intros [= <-]. unfold getitem in Hx.
    destruct (_ || _)%bool; [injection Hx as <-; reflexivity|].
    destruct (l !! _); [discriminate|]. injection Hx as <-. reflexivity.
Qed.

(** X26. Whatever the final layer of a trained cat_mod model declares,
    the cat_mod part of the constructor completes exactly when every
    position in [can_indices] lies inside the output alphabet, and
    otherwise raises [IndexError] (for an empty alphabet, for instance).
    The grouping loop itself never fails: position 0 always counts as a
    canonical base, so a modified base always has a canonical base before
    it. *)
Theorem init_taiyaki_cat_mod_failures :
  forall ff (s : obj),
    let r := ModelInfo.init_taiyaki_cat_mod ff s in
    let can := bases_at (ff_output_alphabet ff)
                 (ModelInfo.can_indices_of (ff_can_nmods ff)) in
    is_Ok (snd r) = is_Ok can
    /\ (forall e, snd r = Raise e -> exn_cls e = IndexError /\ can = Raise e).
Proof.
  intros ff s r can. subst r can.
  unfold ModelInfo.init_taiyaki_cat_mod.
  unfold getattr_arr, getattr_int, getattr_str, getattr_dict, getattr_list.
  step_M.
  destruct (bases_at (ff_output_alphabet ff) (ModelInfo.can_indices_of (ff_can_nmods ff)))
    as [can_alphabet|e] eqn:Hcan.
  - step_M.
    match goal with
    | |- context [ModelInfo.taiyaki_group_loop ?bases 0 None
                    (<["can_base_mods" := PDict ∅]>
                       (<["str_to_int_mod_labels" := PDict ∅]> ?s1))] =>
        change (<["can_base_mods" := PDict ∅]>
                  (<["str_to_int_mod_labels" := PDict ∅]> s1))
          with (loop_state s1 ∅ ∅);
        destruct (taiyaki_group_loop_completes s1
                    (ModelInfo.can_indices_of (ff_can_nmods ff))
                    ltac:(lookup_step; reflexivity) bases 0 None ∅ ∅
                    (map_Forall_empty _))
          as (lab' & d' & Hloop & _)
    end.
    { intros _. destruct (can_indices_of_head (ff_can_nmods ff)) as [rest ->]. left. }
    rewrite Hloop. unfold loop_state. step_M. cbn [snd is_Ok].
    split; [reflexivity|discriminate].
  - cbn [snd is_Ok]. split; [reflexivity|].
    intros e' [= <-]. split; [|reflexivity].
    unfold bases_at in Hcan.
    destruct (mapM _ _) as [x|e0] eqn:Hm; [discriminate|].
    cbn [fmap result_fmap rbind] in Hcan. injection Hcan as <-.
    exact (mapM_getitem_error _ _ _ Hm).
Qed.

Lemma init_taiyaki_cat_mod_failures_witness :
  let ff := {| ff_is_GlobalNormFlipFlopCatMod := true; ff_size := 44;
               ff_output_alphabet := "AZC"; ff_can_nmods := [1; 0; 2; 0];
               ff_mod_long_names_conv := [] |} in
  exn_cls (Exn IndexError "index out of range") = IndexError
  /\ bases_at (ff_output_alphabet ff) (ModelInfo.can_indices_of (ff_can_nmods ff))
     = Raise (Exn IndexError "index out of range").
Proof.
  intros ff.
  apply (proj2 (init_taiyaki_cat_mod_failures ff ∅) (Exn IndexError "index out of range")).
  vm_compute. reflexivity.
Defined.

(** ** From construction to inference on the trained backend *)

Lemma bind_ok_inv {S A B} (m : St S A) (f : A -> St S B) s s' b :
  (m ≫= f) s = (s', Ok b) -> exists s1 a, m s = (s1, Ok a) /\ f a s1 = (s', Ok b).
Proof.
  unfold mbind, St_bind, bind. destruct (m s) as [s1 [a|e]]; [|discriminate].
  intros H. exists s1, a. split; [reflexivity|exact H].
Qed.

Lemma assigns_skip k v {A B} (m : M A) (f : A -> M B) :
  (forall a, assigns k v (f a)) -> assigns k v (m ≫= f).
Proof.
  intros Hf s s' b H. apply bind_ok_inv in H as (s1 & a & _ & H).
  exact (Hf a s1 s' b H).
Qed.

Lemma assigns_here k v {B} (f : unit -> M B) :
  (forall a, preserves k (f a)) -> assigns k v (setattr k v ≫= f).
Proof.
  intros Hf s s' b H. apply bind_ok_inv in H as (s1 & a & Hset & H).
  unfold setattr in Hset. injection Hset as <- <-.
  specialize (Hf tt (<[k:=v]> s)). rewrite H in Hf. cbn [fst] in Hf.
  rewrite Hf. apply lookup_insert_eq.
Qed.




Lemma init_taiyaki_preserves rt fn devices num_proc cs co mcc k :
  k ∉ ["model_type"; "fn"; "chunk_size"; "chunk_overlap"; "max_concur_chunks";
       "devices"; "process_devices"; "load_taiyaki_model"; "tai_run_model";
       "torch"; "is_cat_mod"; "output_size"; "output_alphabet"; "can_indices";
       "can_alphabet"; "mod_long_names"; "str_to_int_mod_labels";
       "can_base_mods"; "n_mods"] ->
  preserves k (ModelInfo.init_taiyaki rt fn devices num_proc cs co mcc).
Proof.
  intros Hk.
  repeat (apply not_elem_of_cons in Hk as [? Hk]).
  unfold ModelInfo.init_taiyaki, ModelInfo.init_taiyaki_model,
         ModelInfo.init_taiyaki_cat_mod, ModelInfo.init_taiyaki_plain.
  unfold getattr_int, getattr_arr, getattr_str, getattr_dict, getattr_list,
         type_error.
  repeat first [ apply taiyaki_group_loop_preserves; congruence
               | apply preserves_setattr; congruence
               | preserves_step ].
Qed.





Lemma init_flappie_assigns rt name num_proc :
  let init := ModelInfo.init_flappie rt name num_proc in
  assigns "model_type" (PStr FLP_NAME) init
  /\ assigns "name" (PStr name) init
  /\ assigns "flappy" (PHandle "flappy") init.
Proof.
  intros init. subst init. unfold ModelInfo.init_flappie.
  repeat split;
    repeat first
      [ apply assigns_here; intros ?;
        unfold ModelInfo.init_flappie_cat_mod, ModelInfo.init_flappie_plain;
        unfold getattr_int, getattr_arr, getattr_str, getattr_dict, type_error;
        repeat first [ apply flappie_group_loop_preserves; discriminate
                     | preserves_step ]
      | apply assigns_skip; intros ? ].
Qed.

(** X28. A compiled model that has been constructed needs no
    preparation: after a successful construction with a compiled-model
    name, [prep_model_worker] changes nothing and makes no runtime call,
    for every device; and [run_model] hands the raw signal and the name
    given at construction to the compiled network and returns its
    outcome as it is, whatever the canonical-state count. *)
Theorem compiled_model_lifecycle :
  forall rt name tai_fn devices num_proc cs co mcc device raw_sig n_can_state self w,
    ModelInfo.__init__ rt (Some name) tai_fn devices num_proc cs co mcc ∅
      = (self, Ok tt) ->
    ModelInfo.prep_model_worker rt device (self, w) = ((self, w), Ok tt)
    /\ ModelInfo.run_model rt raw_sig n_can_state (self, w)
       = ((self, fst (flappy_run_network rt raw_sig name w)),
          snd (flappy_run_network rt raw_sig name w)).
Proof.
  intros rt name tai_fn devices num_proc cs co mcc device raw_sig n self w Hinit.
  change (ModelInfo.init_flappie rt name num_proc ∅ = (self, Ok tt)) in Hinit.
  destruct (init_flappie_assigns rt name num_proc) as (Hty & Hname & Hfl).
  specialize (Hty _ _ _ Hinit). specialize (Hname _ _ _ Hinit).
  specialize (Hfl _ _ _ Hinit).
  split.
  - unfold ModelInfo.prep_model_worker.
    rewrite (bind_ok _ _ _ _ _ (on_self_getattr _ _ _ _ Hty)). reflexivity.
  - unfold ModelInfo.run_model.
    rewrite (bind_ok _ _ _ _ _ (on_self_getattr _ _ _ _ Hty)).
    change (ModelInfo.is_str (PStr FLP_NAME) FLP_NAME) with true. cbv iota.
    rewrite (bind_ok _ _ _ _ _ (on_self_getattr _ _ _ _ Hfl)).
    rewrite (bind_ok _ _ _ _ _ (on_self_getattr _ _ _ _ Hfl)).
    rewrite (bind_ok _ _ (self, w) (self, w) name).
    2:{ unfold getattr_str, ModelInfo.on_self, mbind, St_bind, bind, getattr.
        cbn [fst snd]. rewrite Hname. reflexivity. }
    unfold ModelInfo.on_world. cbn [fst snd].
    destruct (flappy_run_network rt raw_sig name w); reflexivity.
Qed.

Lemma compiled_model_lifecycle_witness :
  let rt := Demo.cat_mod_runtime in
  exists self,
    ModelInfo.__init__ rt (Some "r941_native") None None 2 None None None ∅
      = (self, Ok tt)
    /\ ModelInfo.prep_model_worker rt None (self, Demo.empty_world)
       = ((self, Demo.empty_world), Ok tt)
    /\ snd (ModelInfo.run_model rt [] None (self, Demo.empty_world))
       = Raise (Exn RuntimeError "flappie").
Proof.
  intros rt.
  set (self := fst (ModelInfo.__init__ rt (Some "r941_native") None None 2
                      None None None ∅)).
  assert (Hinit : ModelInfo.__init__ rt (Some "r941_native") None None 2
                    None None None ∅ = (self, Ok tt))
    by (apply pair_eq_snd; vm_compute; reflexivity).
  destruct (compiled_model_lifecycle rt "r941_native" None None 2 None None None
              None [] None self Demo.empty_world Hinit) as [Hprep Hrun].
  exists self. split; [exact Hinit|]. split; [exact Hprep|].
  rewrite Hrun. reflexivity.
Defined.
